(** * Server-side simulation core of the multiplayer world

    A shallow embedding of the authoritative server:
      - [server/src/entities/Player.js]      (module [Player])
      - [server/src/input/InputHandler.js]   (module [InputHandler])
      - [server/src/game/GameManager.js]     (module [GameManager])
      - [server/src/physics/World.js]        (module [PhysicsWorld])
    together with the small part of the JavaScript runtime ([JS]) and of the
    cannon-es rigid-body solver ([CANNON]) that this code observes.

    JavaScript numbers are IEEE-754 binary64 values; they are modelled by
    Rocq's primitive floats, so every arithmetic step of the source is the
    same rounding step here and concrete runs evaluate to the values Node
    would print.  [Date.now()] yields integer milliseconds and is modelled
    in [Z]. *)

From Stdlib Require Import ZArith Bool List String Floats QArith Lia.
From Stdlib Require Uint63.
From stdpp Require Import base option list gmap strings.
Import ListNotations.

Set Warnings "-inexact-float".

Local Open Scope Z_scope.
Local Open Scope string_scope.

(* ===================================================================== *)
(** ** The JavaScript runtime, as far as the server uses it *)
(* ===================================================================== *)

Module JS.

(** Relational operators on numbers: every comparison with NaN is false. *)
Definition gt (a b : float) : bool := (b <? a)%float.
Definition lt (a b : float) : bool := (a <? b)%float.
Definition ge (a b : float) : bool := (b <=? a)%float.

Definition Math_abs (a : float) : float := PrimFloat.abs a.

(** [Math.min(a, b)]: NaN if either argument is NaN, and -0 below +0. *)
Definition Math_min (a b : float) : float :=
  if is_nan a || is_nan b then nan
  else if (a <? b)%float then a
  else if (b <? a)%float then b
  else if get_sign a then a else b.

(** [Math.max(a, b)]: NaN if either argument is NaN, and +0 above -0. *)
Definition Math_max (a b : float) : float :=
  if is_nan a || is_nan b then nan
  else if (a <? b)%float then b
  else if (b <? a)%float then a
  else if get_sign a then b else a.

(** [Math.hypot] as V8 (the engine of Node) computes it.  A first loop over
    the arguments takes the largest magnitude, skipping NaN. *)
Definition hypot_max (max value : float) : float :=
  if is_nan value then max
  else if (max <? PrimFloat.abs value)%float then PrimFloat.abs value
  else max.

(** The second loop adds the squares of the arguments, each divided by
    that largest magnitude, with Kahan's compensated summation. *)
Definition hypot_sum (max : float) (acc : float * float) (value : float)
    : float * float :=
  let '(sum, compensation) := acc in
  let n := (PrimFloat.abs value / max)%float in
  let summand := (n * n - compensation)%float in
  let preliminary := (sum + summand)%float in
  (preliminary, (preliminary - sum - summand)%float).

(** [Math.hypot(a, b)]: +Infinity as soon as one argument is infinite, NaN
    if one is NaN, 0 for two zeros, otherwise the square root of the scaled
    sum, scaled back.  The result can differ in the last bit from
    [Math.sqrt(a * a + b * b)]. *)
Definition Math_hypot (a b : float) : float :=
  let max := fold_left hypot_max [a; b] 0%float in
  if (max =? infinity)%float then infinity
  else if is_nan a || is_nan b then nan
  else if (max =? 0)%float then 0%float
  else (PrimFloat.sqrt (fst (fold_left (hypot_sum max) [a; b] (0, 0)%float)) * max)%float.

(** An integer (a difference of [Date.now()] readings) as a number. *)
Definition Number_of_Z (n : Z) : float :=
  if (n <? 0)%Z then (- of_uint63 (Uint63.of_Z (- n)))%float
  else of_uint63 (Uint63.of_Z n).

(** The rational number a finite float denotes. *)
Definition exact (f : float) : option Q :=
  match Prim2SF f with
  | S754_zero _ => Some 0%Q
  | S754_finite s m e =>
      Some ((if s then - inject_Z (Z.pos m) else inject_Z (Z.pos m)) * Qpower 2 e)%Q
  | _ => None
  end.

(** Values that can arrive in a socket message. *)
#[warnings="-register-all"] Inductive value : Type :=
| undefined
| null
| boolean (b : bool)
| num (n : float)
| str (s : string)
| object (props : list (string * value))
| array (elems : list value).

(** [typeof v === 'object'] *)
Definition typeof_object (v : value) : bool :=
  match v with
  | null | object _ | array _ => true
  | _ => false
  end.

(** [Boolean(v)] *)
Definition ToBoolean (v : value) : bool :=
  match v with
  | undefined | null => false
  | boolean b => b
  | num n => negb (is_zero n || is_nan n)
  | str s => negb (String.eqb s "")
  | object _ | array _ => true
  end.

(** Own property lookup in a property list (keys of an object are
    distinct; the first binding is the property). *)
Fixpoint assoc {A : Type} (key : string) (props : list (string * A)) : option A :=
  match props with
  | [] => None
  | (k, v) :: rest => if String.eqb k key then Some v else assoc key rest
  end.

(** [key in v], for the non-numeric keys the input handler asks about:
    an array has none of them. *)
Definition has_key (key : string) (v : value) : bool :=
  match v with
  | object props => bool_decide (is_Some (assoc key props))
  | _ => false
  end.

(** [v[key]] *)
Definition get (v : value) (key : string) : value :=
  match v with
  | object props => default undefined (assoc key props)
  | _ => undefined
  end.

End JS.

(** Plain [{x, y, z}] triples; [CANNON.Vec3] carries the same three
  coordinates. *)
Module Vec3.
Record t : Type := mk { x : float; y : float; z : float }.

Definition zero : t := mk 0 0 0.

(** [a.vadd(b)] *)
Definition vadd (a b : t) : t :=
  mk (x a + x b)%float (y a + y b)%float (z a + z b)%float.
End Vec3.

(* ===================================================================== *)
(** ** cannon-es, as far as the server observes it *)
(* ===================================================================== *)

Module CANNON.

Record RaycastResult : Type := { hasHit : bool; distance : float }.

(** A rigid body.  [id] is the identity of the JavaScript object (cannon
    numbers bodies from a global counter). *)
Record Body : Type := {
  id : nat;
  mass : float;
  position : Vec3.t;
  velocity : Vec3.t;
  angularVelocity : Vec3.t;
  force : Vec3.t
}.

Definition set_velocity (v : Vec3.t) (b : Body) : Body :=
  {| id := id b; mass := mass b; position := position b; velocity := v;
     angularVelocity := angularVelocity b; force := force b |}.

Definition set_position (v : Vec3.t) (b : Body) : Body :=
  {| id := id b; mass := mass b; position := v; velocity := velocity b;
     angularVelocity := angularVelocity b; force := force b |}.

Definition set_angularVelocity (v : Vec3.t) (b : Body) : Body :=
  {| id := id b; mass := mass b; position := position b; velocity := velocity b;
     angularVelocity := v; force := force b |}.

(** [body.applyForce(f)] at the centre of mass of a dynamic, awake body:
    the force accumulator grows by [f]. *)
Definition applyForce (f : Vec3.t) (b : Body) : Body :=
  {| id := id b; mass := mass b; position := position b; velocity := velocity b;
     angularVelocity := angularVelocity b; force := Vec3.vadd (force b) f |}.

(** The solver world: gravity, the registered bodies (by identity, in
    registration order) and the answer of the current collision geometry
    to a closest-hit ray query. *)
Record World : Type := {
  gravity : Vec3.t;
  bodies : list nat;
  raycastClosest : Vec3.t -> Vec3.t -> RaycastResult
}.

Definition set_bodies (bs : list nat) (w : World) : World :=
  {| gravity := gravity w; bodies := bs; raycastClosest := raycastClosest w |}.

(** [world.addBody(body)]: ignored when the body is already registered. *)
Definition addBody (b : Body) (w : World) : World :=
  if bool_decide (id b ∈ bodies w) then w
  else set_bodies (bodies w ++ [id b])%list w.

(** Removal of the first occurrence, as [indexOf] + [splice] do. *)
Fixpoint splice_out (i : nat) (bs : list nat) : list nat :=
  match bs with
  | [] => []
  | b :: rest => if Nat.eqb b i then rest else b :: splice_out i rest
  end.

(** [world.removeBody(body)]: a body that is not registered is left alone. *)
Definition removeBody (b : Body) (w : World) : World :=
  if bool_decide (id b ∈ bodies w) then set_bodies (splice_out (id b) (bodies w)) w
  else w.

End CANNON.

(* ===================================================================== *)
(** ** server/src/physics/World.js *)
(* ===================================================================== *)

Module PhysicsWorld.

Record t : Type := { world : option CANNON.World; isEnabled : bool }.

(** [constructor()] *)
Definition new : t := {| world := None; isEnabled := false |}.

(** [initialize()]: [solver] is [Some] world when cannon-es could be
    constructed (gravity and ground included) and [None] when the
    construction threw. *)
Definition initialize (solver : option CANNON.World) (pw : t) : t * bool :=
  match solver with
  | Some w => ({| world := Some w; isEnabled := true |}, true)
  | None => ({| world := world pw; isEnabled := false |}, false)
  end.

Definition isPhysicsEnabled (pw : t) : bool := isEnabled pw.

Definition getWorld (pw : t) : option CANNON.World := world pw.

(** [addBody(body)] *)
Definition addBody (b : CANNON.Body) (pw : t) : t :=
  match world pw with
  | Some w =>
      if isEnabled pw
      then {| world := Some (CANNON.addBody b w); isEnabled := isEnabled pw |}
      else pw
  | None => pw
  end.

(** [removeBody(body)] *)
Definition removeBody (b : CANNON.Body) (pw : t) : t :=
  match world pw with
  | Some w =>
      if isEnabled pw
      then {| world := Some (CANNON.removeBody b w); isEnabled := isEnabled pw |}
      else pw
  | None => pw
  end.

(** [step(deltaTime = 1/60)]: [solver] is the effect of cannon's
    [world.step] on the world object. *)
Definition step (solver : float -> CANNON.World -> CANNON.World) (pw : t) : t :=
  match world pw with
  | Some w =>
      if isEnabled pw
      then {| world := Some (solver (1 / 60)%float w); isEnabled := isEnabled pw |}
      else pw
  | None => pw
  end.

(** [getDebugData()], reduced to the identities of the bodies it lists. *)
Definition getDebugData (pw : t) : list nat :=
  match world pw with
  | Some w => if isEnabled pw then CANNON.bodies w else []
  | None => []
  end.

(** The state [initialize] can leave behind: an enabled world exists. *)
Definition consistent (pw : t) : Prop :=
  isEnabled pw = true -> is_Some (world pw).

(** No body is registered twice ([world.addBody] refuses a second
    registration). *)
Definition distinctBodies (pw : t) : Prop :=
  forall w, world pw = Some w -> NoDup (CANNON.bodies w).

End PhysicsWorld.

(* ===================================================================== *)
(** ** server/src/entities/Player.js *)
(* ===================================================================== *)

Module Player.

Local Open Scope float_scope.

(** [this.input] *)
Record Input : Type := {
  left : bool;
  right : bool;
  forward : bool;
  backward : bool;
  jump : bool
}.

(** The entity.  [physicsWorld] is a reference to the one shared world
    object; the operations below receive that world as an argument. *)
Record t : Type := {
  id : string;
  color : string;
  lastUpdate : Z;
  onGround : bool;
  input : Input;
  position : Vec3.t;
  velocity : Vec3.t;
  body : option CANNON.Body
}.

Definition set_lastUpdate (n : Z) (p : t) : t :=
  {| id := id p; color := color p; lastUpdate := n; onGround := onGround p;
     input := input p; position := position p; velocity := velocity p;
     body := body p |}.

Definition set_onGround (g : bool) (p : t) : t :=
  {| id := id p; color := color p; lastUpdate := lastUpdate p; onGround := g;
     input := input p; position := position p; velocity := velocity p;
     body := body p |}.

Definition set_input (i : Input) (p : t) : t :=
  {| id := id p; color := color p; lastUpdate := lastUpdate p;
     onGround := onGround p; input := i; position := position p;
     velocity := velocity p; body := body p |}.

Definition set_position (v : Vec3.t) (p : t) : t :=
  {| id := id p; color := color p; lastUpdate := lastUpdate p;
     onGround := onGround p; input := input p; position := v;
     velocity := velocity p; body := body p |}.

Definition set_velocity (v : Vec3.t) (p : t) : t :=
  {| id := id p; color := color p; lastUpdate := lastUpdate p;
     onGround := onGround p; input := input p; position := position p;
     velocity := v; body := body p |}.

Definition set_body (b : option CANNON.Body) (p : t) : t :=
  {| id := id p; color := color p; lastUpdate := lastUpdate p;
     onGround := onGround p; input := input p; position := position p;
     velocity := velocity p; body := b |}.

(** A statement that mutates [this.body] in place (and is skipped when
    there is no body). *)
Definition on_body (f : CANNON.Body -> CANNON.Body) (p : t) : t :=
  set_body (f <$> body p) p.

(** The tuning constants set by the constructor (lines 14-23). *)
Definition xxxx : float := 150.
Definition SPEED : float := (16.0 * xxxx)%float.
Definition MAX_HORIZONTAL_SPEED : float := (18.0 * xxxx)%float.
Definition ACCELERATION : float := (19.0 * xxxx)%float.
Definition AIR_ACCELERATION : float := 1.4.
Definition JUMP_FORCE : float := 1.3.
Definition LINEAR_DAMPING : float := 0.18.
Definition FLOATINESS : float := 0.35.
Definition VELOCITY_LERP : float := 18.0.

(** [constructor] with [createPhysicsBody] (lines 4-54).  [colour] is the
    palette entry drawn by [generateRandomColor], [bodyId] the identity of
    the body object that is allocated when physics is enabled. *)
Definition new (ident : string) (pw : PhysicsWorld.t) (colour : string)
    (now : Z) (bodyId : nat) (px py pz : float) : t * PhysicsWorld.t :=
  let fresh (b : option CANNON.Body) :=
    {| id := ident; color := colour; lastUpdate := now; onGround := false;
       input := {| left := false; right := false; forward := false;
                   backward := false; jump := false |};
       position := Vec3.mk px py pz; velocity := Vec3.zero; body := b |} in
  if negb (PhysicsWorld.isPhysicsEnabled pw) then (fresh None, pw)
  else
    let b := {| CANNON.id := bodyId; CANNON.mass := 1;
                CANNON.position := Vec3.mk px py pz;
                CANNON.velocity := Vec3.zero;
                CANNON.angularVelocity := Vec3.zero;
                CANNON.force := Vec3.zero |} in
    (fresh (Some b), PhysicsWorld.addBody b pw).

(** [updateInput(inputData)]: [{ ...this.input, ...inputData }].  The
    argument is the record built by the input handler, whose keys are among
    the five intents. *)
Definition updateInput (inputData : list (string * bool)) (p : t) : t :=
  let i := input p in
  set_input
    {| left := default (left i) (JS.assoc "left" inputData);
       right := default (right i) (JS.assoc "right" inputData);
       forward := default (forward i) (JS.assoc "forward" inputData);
       backward := default (backward i) (JS.assoc "backward" inputData);
       jump := default (jump i) (JS.assoc "jump" inputData) |} p.

(** [if (deltaTime > 0.1) deltaTime = deltaTime / 1000;]
    This statement stands at line 71 of [update] and again at line 114 of
    [updateSimpleMovement]. *)
Definition normalizeDeltaTime (deltaTime : float) : float :=
  if JS.gt deltaTime 0.1 then (deltaTime / 1000)%float else deltaTime.

(** The target horizontal velocity [(targetX, targetZ)]: lines 115-126 of
    [updateSimpleMovement] and, statement for statement, lines 156-166 of
    [applyMovementForces]. *)
Definition targetVelocity (i : Input) : float * float :=
  let targetX : float := 0 in
  let targetZ : float := 0 in
  let targetX := if left i then (targetX - SPEED)%float else targetX in
  let targetX := if right i then (targetX + SPEED)%float else targetX in
  let targetZ := if forward i then (targetZ - SPEED)%float else targetZ in
  let targetZ := if backward i then (targetZ + SPEED)%float else targetZ in
  let len := JS.Math_hypot targetX targetZ in
  if JS.gt len SPEED
  then ((targetX / len) * SPEED, (targetZ / len) * SPEED)%float
  else (targetX, targetZ).

(** Lines 115-138 of [updateSimpleMovement], for an elapsed time that is
    already in its final form. *)
Definition simpleMovementStep (deltaTime : float) (p : t) : t :=
  let '(targetX, targetZ) := targetVelocity (input p) in
  let lerp := JS.Math_min 1 (VELOCITY_LERP * deltaTime)%float in
  let v := velocity p in
  let vx := (Vec3.x v + (targetX - Vec3.x v) * lerp)%float in
  let vz := (Vec3.z v + (targetZ - Vec3.z v) * lerp)%float in
  let q := position p in
  let px := (Vec3.x q + vx * deltaTime)%float in
  let pz := (Vec3.z q + vz * deltaTime)%float in
  set_position
    (Vec3.mk (JS.Math_max (-50) (JS.Math_min 50 px))
             (JS.Math_max 0 (Vec3.y q))
             (JS.Math_max (-50) (JS.Math_min 50 pz)))
    (set_velocity (Vec3.mk vx (Vec3.y v) vz) p).

(** [updateSimpleMovement(deltaTime)] (lines 112-139). *)
Definition updateSimpleMovement (deltaTime : float) (p : t) : t :=
  simpleMovementStep (normalizeDeltaTime deltaTime) p.

(** The ray query of lines 144-148: from the body's centre to 1.05 below
    it, with empty options. *)
Definition groundProbe (world : CANNON.World) (b : CANNON.Body)
    : CANNON.RaycastResult :=
  let q := CANNON.position b in
  let start := Vec3.mk (Vec3.x q) (Vec3.y q) (Vec3.z q) in
  let end_ := Vec3.mk (Vec3.x q) (Vec3.y q - 1.05) (Vec3.z q) in
  CANNON.raycastClosest world start end_.

(** The downward probe of lines 144-149: a ray from the body's centre to
    1.05 below it, grounded when it hits closer than 1.01. *)
Definition groundContact (world : CANNON.World) (b : CANNON.Body) : bool :=
  let q := CANNON.position b in
  let start := Vec3.mk (Vec3.x q) (Vec3.y q) (Vec3.z q) in
  let end_ := Vec3.mk (Vec3.x q) (Vec3.y q - 1.05) (Vec3.z q) in
  let result := CANNON.raycastClosest world start end_ in
  CANNON.hasHit result && JS.lt (CANNON.distance result) 1.01.

(** [checkGroundContact()] (lines 141-150).  [getWorld] is a method of
    every world object, so the first guard reduces to the body check; with
    a body but no solver world, [world.raycastClosest] is a call on [null]
    and throws ([None]). *)
Definition checkGroundContact (pw : PhysicsWorld.t) (p : t) : option t :=
  match body p with
  | None => Some p
  | Some b =>
      world ← PhysicsWorld.getWorld pw;
      Some (set_onGround (groundContact world b) p)
  end.

(** Scaling of the horizontal velocity when it exceeds [limit]
    (lines 177-182 and 202-207). *)
Definition clampHorizontal (limit : float) (vel : Vec3.t) : Vec3.t :=
  let hv := JS.Math_hypot (Vec3.x vel) (Vec3.z vel) in
  if JS.gt hv limit then
    let s := (limit / hv)%float in
    Vec3.mk (Vec3.x vel * s)%float (Vec3.y vel) (Vec3.z vel * s)%float
  else vel.

(** [applyMovementForces(deltaTime)] (lines 152-209). *)
Definition applyMovementForces (deltaTime : float) (p : t) : t :=
  match body p with
  | None => p
  | Some b =>
      let '(targetX, targetZ) := targetVelocity (input p) in
      let vel := CANNON.velocity b in
      if onGround p then
        let lerp := JS.Math_min 1 (ACCELERATION * deltaTime)%float in
        let vel :=
          Vec3.mk (Vec3.x vel + (targetX - Vec3.x vel) * lerp)%float
                  (Vec3.y vel)
                  (Vec3.z vel + (targetZ - Vec3.z vel) * lerp)%float in
        let vel := clampHorizontal MAX_HORIZONTAL_SPEED vel in
        if jump (input p) && onGround p then
          set_onGround false
            (set_body
               (Some (CANNON.set_velocity
                        (Vec3.mk (Vec3.x vel) JUMP_FORCE (Vec3.z vel)) b)) p)
        else set_body (Some (CANNON.set_velocity vel b)) p
      else
        let desiredX := (targetX - Vec3.x vel)%float in
        let desiredZ := (targetZ - Vec3.z vel)%float in
        let forceX := (desiredX * AIR_ACCELERATION * CANNON.mass b)%float in
        let forceZ := (desiredZ * AIR_ACCELERATION * CANNON.mass b)%float in
        let b := CANNON.applyForce (Vec3.mk forceX 0 forceZ) b in
        let vel := clampHorizontal (MAX_HORIZONTAL_SPEED * 1.4)%float vel in
        set_body (Some (CANNON.set_velocity vel b)) p
  end.

(** The upward force while airborne (lines 92-102 of [update]). *)
Definition applyFloatiness (pw : PhysicsWorld.t) (p : t) : t :=
  if negb (onGround p) && JS.gt FLOATINESS 0 then
    match PhysicsWorld.getWorld pw with
    | Some world =>
        let gravityY := Vec3.y (CANNON.gravity world) in
        on_body (fun b =>
                   let upForce := (CANNON.mass b * (- gravityY) * FLOATINESS)%float in
                   CANNON.applyForce (Vec3.mk 0 upForce 0) b) p
    | None => p
    end
  else p.

(** The condition of line 215. *)
Definition outOfBounds (q : Vec3.t) : bool :=
  let boundary : float := 48 in
  JS.gt (JS.Math_abs (Vec3.x q)) boundary
  || JS.gt (JS.Math_abs (Vec3.z q)) boundary
  || JS.lt (Vec3.y q) (-10).

(** [applyBoundaryConstraints()] (lines 211-220). *)
Definition applyBoundaryConstraints (p : t) : t :=
  on_body (fun b =>
             if outOfBounds (CANNON.position b) then
               CANNON.set_angularVelocity (Vec3.mk 0 0 0)
                 (CANNON.set_velocity (Vec3.mk 0 0 0)
                    (CANNON.set_position (Vec3.mk 0 5 0) b))
             else b) p.

(** Whether [update] takes the kinematic branch (line 73). *)
Definition kinematic (pw : PhysicsWorld.t) (p : t) : bool :=
  match body p with
  | None => true
  | Some _ => negb (PhysicsWorld.isPhysicsEnabled pw)
  end.

(** Lines 80-83 of [update]: copy the body's position and velocity. *)
Definition syncFromBody (p : t) : t :=
  match body p with
  | Some b =>
      let pos := CANNON.position b in
      let vel := CANNON.velocity b in
      set_velocity (Vec3.mk (Vec3.x vel) (Vec3.y vel) (Vec3.z vel))
        (set_position (Vec3.mk (Vec3.x pos) (Vec3.y pos) (Vec3.z pos)) p)
  | None => p
  end.

(** Lines 105-106 of [update]: [angularVelocity.x = 0; angularVelocity.z = 0]. *)
Definition stopRotation (p : t) : t :=
  on_body (fun b =>
             let w := CANNON.angularVelocity b in
             CANNON.set_angularVelocity (Vec3.mk 0 (Vec3.y w) 0) b) p.

(** Line 69 of [update]: an argument that is not a number ([None]) is
    replaced by the time since [lastUpdate], in seconds. *)
Definition elapsed (now : Z) (deltaTime : option float) (p : t) : float :=
  match deltaTime with
  | Some d => d
  | None => JS.Number_of_Z (now - lastUpdate p) / 1000
  end.

(** [update(deltaTime)] (lines 68-110); [now] is the reading of
    [Date.now()]. *)
Definition update (now : Z) (deltaTime : option float)
    (pw : PhysicsWorld.t) (p : t) : option t :=
  let deltaTime := elapsed now deltaTime p in
  let deltaTime := normalizeDeltaTime deltaTime in
  if kinematic pw p then
    Some (set_lastUpdate now (updateSimpleMovement deltaTime p))
  else
    let p := syncFromBody p in
    p ← checkGroundContact pw p;
    let p := applyMovementForces deltaTime p in
    let p := applyFloatiness pw p in
    let p := stopRotation p in
    let p := applyBoundaryConstraints p in
    Some (set_lastUpdate now p).

(** The public state sent to clients. *)
Module State.
Record t : Type := {
  id : string;
  position : Vec3.t;
  velocity : Vec3.t;
  color : string;
  onGround : bool
}.
End State.

(** [getState()] (lines 222-230). *)
Definition getState (p : t) : State.t :=
  {| State.id := id p; State.position := position p;
     State.velocity := velocity p; State.color := color p;
     State.onGround := onGround p |}.

(** [destroy()] (lines 232-234): the effect on the shared world. *)
Definition destroy (p : t) (pw : PhysicsWorld.t) : PhysicsWorld.t :=
  match body p with
  | Some b => PhysicsWorld.removeBody b pw
  | None => pw
  end.

End Player.

(* ===================================================================== *)
(** ** server/src/input/InputHandler.js *)
(* ===================================================================== *)

Module InputHandler.

(** [this.lastInputTime], the only mutable field. *)
Record t : Type := { lastInputTime : gmap string Z }.

Definition validInputs : list string :=
  ["left"; "right"; "forward"; "backward"; "jump"].

Definition INPUT_RATE_LIMIT : Z := 16.

(** [constructor()] *)
Definition new : t := {| lastInputTime := ∅ |}.

(** [validateInput(inputData)] (lines 20-36).  The result object is the
    list of its properties in insertion order; [None] is [null]. *)
Definition validateInput (inputData : JS.value) : option (list (string * bool)) :=
  if negb (JS.ToBoolean inputData) || negb (JS.typeof_object inputData)
  then None
  else
    Some (foldl (fun (validatedInput : list (string * bool)) key =>
                   if JS.has_key key inputData
                   then (validatedInput ++ [(key, JS.ToBoolean (JS.get inputData key))])%list
                   else validatedInput)
                [] validInputs).

(** The contract of validation in the specification's words: a structured
    record is a value of object type that is not missing ... *)
Definition structuredRecord (inputData : JS.value) : bool :=
  match inputData with
  | JS.object _ | JS.array _ => true
  | _ => false
  end.

(** ... and its normal form holds exactly the recognized keys that are
    present, each with its value coerced to boolean. *)
Definition normalized (inputData : JS.value) : list (string * bool) :=
  map (fun key => (key, JS.ToBoolean (JS.get inputData key)))
      (List.filter (fun key => JS.has_key key inputData) validInputs).

(** [shouldProcessInput(playerId)] (lines 43-53) at clock reading [now]. *)
Definition shouldProcessInput (now : Z) (playerId : string) (h : t) : bool * t :=
  let lastTime := default 0 (lastInputTime h !! playerId) in
  if (now - lastTime >=? INPUT_RATE_LIMIT)%Z
  then (true, {| lastInputTime := <[playerId := now]> (lastInputTime h) |})
  else (false, h).

(** [processInput(playerId, inputData, player)] (lines 62-77): the value
    returned, the handler and the player afterwards. *)
Definition processInput (now : Z) (playerId : string) (inputData : JS.value)
    (player : Player.t) (h : t) : bool * t * Player.t :=
  match validateInput inputData with
  | None => (false, h, player)
  | Some validInput =>
      let '(ok, h') := shouldProcessInput now playerId h in
      if negb ok then (false, h', player)
      else (true, h', Player.updateInput validInput player)
  end.

(** [cleanupPlayer(playerId)] *)
Definition cleanupPlayer (playerId : string) (h : t) : t :=
  {| lastInputTime := delete playerId (lastInputTime h) |}.

(** [getStats()] *)
Definition getStats (h : t) : nat * Z :=
  (size (lastInputTime h), INPUT_RATE_LIMIT).

End InputHandler.

(* ===================================================================== *)
(** ** server/src/game/GameManager.js *)
(* ===================================================================== *)

Module GameManager.

(** A JavaScript [Map] with string keys, in insertion order. *)
Section Map.
Context {A : Type}.

Definition Map_get (key : string) (m : list (string * A)) : option A :=
  JS.assoc key m.

Fixpoint Map_set (key : string) (v : A) (m : list (string * A)) : list (string * A) :=
  match m with
  | [] => [(key, v)]
  | (k, w) :: rest =>
      if String.eqb k key then (k, v) :: rest else (k, w) :: Map_set key v rest
  end.

Fixpoint Map_delete (key : string) (m : list (string * A)) : list (string * A) :=
  match m with
  | [] => []
  | (k, w) :: rest =>
      if String.eqb k key then Map_delete key rest else (k, w) :: Map_delete key rest
  end.

Definition Map_size (m : list (string * A)) : nat := length m.

Definition Map_values (m : list (string * A)) : list A := map snd m.

End Map.

(** The snapshot object of [broadcastGameState] and [getGameState]. *)
Record GameState : Type := {
  gs_players : list Player.State.t;
  timestamp : Z;
  physics_enabled : bool;
  physics_debugData : list nat
}.

(** What [this.io.emit] has sent. *)
Inductive Event : Type :=
| gameUpdate (gameState : GameState).

Record t : Type := {
  physicsWorld : PhysicsWorld.t;
  io : list Event;
  players : list (string * Player.t);
  lastTick : Z;
  gameLoopInterval : bool
}.

Definition TICK_RATE : Z := 60.

(** [constructor(physicsWorld, io)] at clock reading [now]. *)
Definition new (pw : PhysicsWorld.t) (now : Z) : t :=
  {| physicsWorld := pw; io := []; players := []; lastTick := now;
     gameLoopInterval := false |}.

(** [startGameLoop()] and [stopGameLoop()]: the timer handle. *)
Definition startGameLoop (gm : t) : t :=
  if gameLoopInterval gm then gm
  else {| physicsWorld := physicsWorld gm; io := io gm; players := players gm;
          lastTick := lastTick gm; gameLoopInterval := true |}.

Definition stopGameLoop (gm : t) : t :=
  if gameLoopInterval gm
  then {| physicsWorld := physicsWorld gm; io := io gm; players := players gm;
          lastTick := lastTick gm; gameLoopInterval := false |}
  else gm.

(** [updateAllPlayers(deltaTime)] (lines 69-73); an exception of one
    [update] leaves the loop. *)
Fixpoint updateAllPlayers (now : Z) (deltaTime : float) (pw : PhysicsWorld.t)
    (m : list (string * Player.t)) : option (list (string * Player.t)) :=
  match m with
  | [] => Some []
  | (k, player) :: rest =>
      player' ← Player.update now (Some deltaTime) pw player;
      rest' ← updateAllPlayers now deltaTime pw rest;
      Some ((k, player') :: rest')
  end.

(** [broadcastGameState(timestamp)] (lines 79-91). *)
Definition broadcastGameState (stamp : Z) (gm : t) : t :=
  if (0 <? Map_size (players gm))%nat then
    let gameState :=
      {| gs_players := map Player.getState (Map_values (players gm));
         timestamp := stamp;
         physics_enabled := PhysicsWorld.isPhysicsEnabled (physicsWorld gm);
         physics_debugData := PhysicsWorld.getDebugData (physicsWorld gm) |} in
    {| physicsWorld := physicsWorld gm; io := (io gm ++ [gameUpdate gameState])%list;
       players := players gm; lastTick := lastTick gm;
       gameLoopInterval := gameLoopInterval gm |}
  else gm.

Section Solver.

(** The effect of one [world.step(dt)] of cannon-es on the world object
    and on a body registered in it. *)
Variable worldStep : float -> CANNON.World -> CANNON.World.
Variable bodyStep : float -> CANNON.World -> CANNON.Body -> CANNON.Body.

(** What [physicsWorld.step()] does to the body a player refers to. *)
Definition stepPlayer (pw : PhysicsWorld.t) (player : Player.t) : Player.t :=
  match PhysicsWorld.world pw with
  | Some w =>
      if PhysicsWorld.isEnabled pw then
        Player.on_body
          (fun b => if bool_decide (CANNON.id b ∈ CANNON.bodies w)
                    then bodyStep (1 / 60)%float w b else b) player
      else player
  | None => player
  end.

(** [gameLoop()] (lines 50-63) at clock reading [now]. *)
Definition gameLoop (now : Z) (gm : t) : option t :=
  let deltaTime := (JS.Number_of_Z (now - lastTick gm) / 1000)%float in
  let stepped := map (fun kp => (fst kp, stepPlayer (physicsWorld gm) (snd kp)))
                     (players gm) in
  let pw := PhysicsWorld.step worldStep (physicsWorld gm) in
  players' ← updateAllPlayers now deltaTime pw stepped;
  Some (broadcastGameState now
          {| physicsWorld := pw; io := io gm; players := players';
             lastTick := now; gameLoopInterval := gameLoopInterval gm |}).

End Solver.

(** [addPlayer(playerId, x, y, z)] (lines 101-113); [r1] and [r2] are the
    two draws of [Math.random()]. *)
Definition addPlayer (r1 r2 : float) (colour : string) (now : Z) (bodyId : nat)
    (playerId : string) (px py pz : float) (gm : t) : Player.t * t :=
  let spawnX := (px + (r1 * 10 - 5))%float in
  let spawnZ := (pz + (r2 * 10 - 5))%float in
  let '(player, pw) :=
    Player.new playerId (physicsWorld gm) colour now bodyId spawnX py spawnZ in
  (player,
   {| physicsWorld := pw; io := io gm;
      players := Map_set playerId player (players gm);
      lastTick := lastTick gm; gameLoopInterval := gameLoopInterval gm |}).

(** [removePlayer(playerId)] (lines 119-126). *)
Definition removePlayer (playerId : string) (gm : t) : t :=
  match Map_get playerId (players gm) with
  | Some player =>
      {| physicsWorld := Player.destroy player (physicsWorld gm); io := io gm;
         players := Map_delete playerId (players gm);
         lastTick := lastTick gm; gameLoopInterval := gameLoopInterval gm |}
  | None => gm
  end.

(** [getPlayer(playerId)] *)
Definition getPlayer (playerId : string) (gm : t) : option Player.t :=
  Map_get playerId (players gm).

(** [shutdown()] (lines 176-186). *)
Definition shutdown (gm : t) : t :=
  let gm := stopGameLoop gm in
  {| physicsWorld :=
       foldl (fun pw player => Player.destroy player pw) (physicsWorld gm)
             (Map_values (players gm));
     io := io gm; players := []; lastTick := lastTick gm;
     gameLoopInterval := gameLoopInterval gm |}.

(** [getAllPlayers()] *)
Definition getAllPlayers (gm : t) : list (string * Player.t) := players gm.

(** [getGameStats()] (lines 149-156), without the process uptime:
    [playerCount], [tickRate] and [physicsEnabled]. *)
Definition getGameStats (gm : t) : nat * Z * bool :=
  (Map_size (players gm), TICK_RATE,
   PhysicsWorld.isPhysicsEnabled (physicsWorld gm)).

(** [getGameState()] (lines 162-171) at clock reading [now]. *)
Definition getGameState (now : Z) (gm : t) : GameState :=
  {| gs_players := map Player.getState (Map_values (players gm));
     timestamp := now;
     physics_enabled := PhysicsWorld.isPhysicsEnabled (physicsWorld gm);
     physics_debugData := PhysicsWorld.getDebugData (physicsWorld gm) |}.

End GameManager.

(* ===================================================================== *)
(** ** server/index.js: the socket handlers *)
(* ===================================================================== *)

Module Server.

Record t : Type := {
  gameManager : GameManager.t;
  inputHandler : InputHandler.t
}.

(** [startServer()]: [physicsWorld.initialize()], then the manager. *)
Definition startServer (solver : option CANNON.World) (now : Z) : t :=
  {| gameManager :=
       GameManager.startGameLoop
         (GameManager.new (fst (PhysicsWorld.initialize solver PhysicsWorld.new)) now);
     inputHandler := InputHandler.new |}.

(** [io.on('connection')]: the new participant joins the registry. *)
Definition onConnection (r1 r2 : float) (colour : string) (now : Z) (bodyId : nat)
    (socketId : string) (s : t) : t :=
  {| gameManager :=
       snd (GameManager.addPlayer r1 r2 colour now bodyId socketId 0 2 0
              (gameManager s));
     inputHandler := inputHandler s |}.

(** [socket.on('playerInput')] (lines 55-60): the registered player object
    is the one the handler mutates. *)
Definition onPlayerInput (now : Z) (socketId : string) (inputData : JS.value)
    (s : t) : t :=
  let gm := gameManager s in
  match GameManager.getPlayer socketId gm with
  | Some player =>
      let '(_, h, player') :=
        InputHandler.processInput now socketId inputData player (inputHandler s) in
      {| gameManager :=
           {| GameManager.physicsWorld := GameManager.physicsWorld gm;
              GameManager.io := GameManager.io gm;
              GameManager.players :=
                GameManager.Map_set socketId player' (GameManager.players gm);
              GameManager.lastTick := GameManager.lastTick gm;
              GameManager.gameLoopInterval := GameManager.gameLoopInterval gm |};
         inputHandler := h |}
  | None => s
  end.

(** [socket.on('disconnect')] (lines 63-72). *)
Definition onDisconnect (socketId : string) (s : t) : t :=
  {| gameManager := GameManager.removePlayer socketId (gameManager s);
     inputHandler := InputHandler.cleanupPlayer socketId (inputHandler s) |}.

(** The states of a running server.  A solver step keeps the list of
    registered bodies, and the solver starts without duplicates in it. *)
Inductive reachable : t -> Prop :=
| reach_start (solver : option CANNON.World) (now : Z) :
    (forall w, solver = Some w -> NoDup (CANNON.bodies w)) ->
    reachable (startServer solver now)
| reach_connection r1 r2 colour now bodyId socketId s :
    reachable s -> reachable (onConnection r1 r2 colour now bodyId socketId s)
| reach_playerInput now socketId inputData s :
    reachable s -> reachable (onPlayerInput now socketId inputData s)
| reach_disconnect socketId s :
    reachable s -> reachable (onDisconnect socketId s)
| reach_tick worldStep bodyStep now s gm' :
    reachable s ->
    (forall dt w, CANNON.bodies (worldStep dt w) = CANNON.bodies w) ->
    GameManager.gameLoop worldStep bodyStep now (gameManager s) = Some gm' ->
    reachable {| gameManager := gm'; inputHandler := inputHandler s |}.

End Server.

(* ===================================================================== *)
(** ** Histories of one participant *)
(* ===================================================================== *)

Module Trace.

(** What happens to a participant between creation and removal: the game
    loop calls [update], the input handler calls [updateInput]. *)
Inductive action : Type :=
| tick (now : Z) (deltaTime : option float)
| message (inputData : list (string * bool)).

Fixpoint run (pw : PhysicsWorld.t) (acts : list action) (p : Player.t)
    : option Player.t :=
  match acts with
  | [] => Some p
  | tick now deltaTime :: rest => p' ← Player.update now deltaTime pw p; run pw rest p'
  | message inputData :: rest => run pw rest (Player.updateInput inputData p)
  end.

Definition isTick (a : action) : bool :=
  match a with tick _ _ => true | message _ => false end.

(** The same history with every mention of [jump] erased. *)
Definition withoutJump (a : action) : action :=
  match a with
  | tick now deltaTime => tick now deltaTime
  | message inputData =>
      message (List.filter (fun kv => negb (String.eqb (fst kv) "jump")) inputData)
  end.

(** Two participants that differ at most in the [jump] intent. *)
Definition sameButJump (p q : Player.t) : Prop :=
  Player.id p = Player.id q
  /\ Player.color p = Player.color q
  /\ Player.lastUpdate p = Player.lastUpdate q
  /\ Player.onGround p = Player.onGround q
  /\ Player.position p = Player.position q
  /\ Player.velocity p = Player.velocity q
  /\ Player.body p = Player.body q
  /\ Player.left (Player.input p) = Player.left (Player.input q)
  /\ Player.right (Player.input p) = Player.right (Player.input q)
  /\ Player.forward (Player.input p) = Player.forward (Player.input q)
  /\ Player.backward (Player.input p) = Player.backward (Player.input q).

End Trace.

(* ===================================================================== *)
(** ** Concrete scenarios *)
(* ===================================================================== *)

Module Scenario.

Local Open Scope float_scope.

(** The static ground of [createGround], a plane at height -0.5: a
    downward ray hits it when it reaches that height, at the distance of
    its origin above the plane. *)
Definition groundPlane (start end_ : Vec3.t) : CANNON.RaycastResult :=
  {| CANNON.hasHit := JS.lt (Vec3.y end_) (-0.5);
     CANNON.distance := Vec3.y start + 0.5 |}.

(** The box of the participant the ray is cast for.  The only rays of the
    server start at the centre of a participant's body (line 145 of the
    entity), whose shape is the box of half extents (0.4, 0.9, 0.4) of
    line 36, and that body is registered in the world like any other.  A
    ray query tests every face of a box and, unless [skipBackfaces] is
    asked for (the options of line 148 are empty), reports faces crossed
    from the inside too: a downward ray that is at least 0.9 long leaves
    the box through its bottom face, 0.9 from its origin. *)
Definition ownBox (start end_ : Vec3.t) : CANNON.RaycastResult :=
  {| CANNON.hasHit := JS.ge (Vec3.y start - Vec3.y end_) 0.9;
     CANNON.distance := 0.9 |}.

(** The hit a closest-hit query keeps of two. *)
Definition closest (r1 r2 : CANNON.RaycastResult) : CANNON.RaycastResult :=
  if CANNON.hasHit r1 then
    if CANNON.hasHit r2 && JS.lt (CANNON.distance r2) (CANNON.distance r1)
    then r2 else r1
  else r2.

(** The solver world of the running server over its flat ground: a ray
    cast from a participant's centre meets that participant's box and the
    ground. *)
Definition flatGround : CANNON.World :=
  {| CANNON.gravity := Vec3.mk 0 (-9.82) 0;
     CANNON.bodies := [0%nat; 1%nat; 2%nat];
     CANNON.raycastClosest := fun start end_ =>
       closest (ownBox start end_) (groundPlane start end_) |}.

Definition enabledWorld : PhysicsWorld.t :=
  {| PhysicsWorld.world := Some flatGround; PhysicsWorld.isEnabled := true |}.

Definition disabledWorld : PhysicsWorld.t := PhysicsWorld.new.

Definition bodyAt (ident : nat) (px py pz : float) : CANNON.Body :=
  {| CANNON.id := ident; CANNON.mass := 1;
     CANNON.position := Vec3.mk px py pz;
     CANNON.velocity := Vec3.zero;
     CANNON.angularVelocity := Vec3.mk 0.5 0.25 0.125;
     CANNON.force := Vec3.zero |}.

Definition holding (l r f b j : bool) : Player.Input :=
  {| Player.left := l; Player.right := r; Player.forward := f;
     Player.backward := b; Player.jump := j |}.

(** A physics-backed participant holding [jump], resting on the ground
    (its centre 0.9 above it). *)
Definition jumper : Player.t :=
  {| Player.id := "p1"; Player.color := "#ff6b6b"; Player.lastUpdate := 1000;
     Player.onGround := false; Player.input := holding false false false false true;
     Player.position := Vec3.mk 0 0.4 0; Player.velocity := Vec3.zero;
     Player.body := Some (bodyAt 1 0 0.4 0) |}.

(** The body of [jumper] one solver step after its jump: 0.02 above its
    resting height and rising. *)
Definition rising : CANNON.Body :=
  CANNON.set_velocity (Vec3.mk 0 1.19 0) (bodyAt 1 0 0.42 0).

(** The same body where the solver has taken it some ticks later: in the
    air, 2.6 above its resting height, and still rising. *)
Definition airborne : CANNON.Body :=
  CANNON.set_velocity (Vec3.mk 0 1.2 0) (bodyAt 1 0 3 0).

(** A physics-backed participant that has left the world radius. *)
Definition stray : Player.t :=
  {| Player.id := "p3"; Player.color := "#45b7d1"; Player.lastUpdate := 1000;
     Player.onGround := false; Player.input := holding false false false false false;
     Player.position := Vec3.mk 60 0.4 0; Player.velocity := Vec3.zero;
     Player.body := Some (bodyAt 2 60 0.4 0) |}.

(** A kinematic participant at [x = px], at rest. *)
Definition walker (px : float) (i : Player.Input) : Player.t :=
  {| Player.id := "p2"; Player.color := "#4ecdc4"; Player.lastUpdate := 1000;
     Player.onGround := false; Player.input := i;
     Player.position := Vec3.mk px 2 0; Player.velocity := Vec3.zero;
     Player.body := None |}.

(** A kinematic participant at the origin holding [left]. *)
Definition leftWalker : Player.t := walker 0 (holding true false false false false).

(** A participant constructed while physics is disabled. *)
Definition fresh : Player.t :=
  fst (Player.new "p2" disabledWorld "#4ecdc4" 1000 7 0 2 0).

(** A message that asserts one intent. *)
Definition press (key : string) : JS.value :=
  JS.object [(key, JS.boolean true)].

(** The handler after an input of connection "p2" was accepted at [t]. *)
Definition handlerAt (t : Z) : InputHandler.t :=
  {| InputHandler.lastInputTime := {[ "p2" := t ]} |}.

Definition idle : Player.Input := holding false false false false false.

(** A running game with the participants [jumper] and [stray]. *)
Definition game : GameManager.t :=
  {| GameManager.physicsWorld := enabledWorld; GameManager.io := [];
     GameManager.players := [("p1", jumper); ("p3", stray)];
     GameManager.lastTick := 1000; GameManager.gameLoopInterval := true |}.

End Scenario.

(* ===================================================================== *)
(** ** Histories of the input handler and of the connection *)
(* ===================================================================== *)

Module Arrivals.


(** The clock readings at which [shouldProcessInput] accepts an input of
    connection [playerId], when the handler is asked for each arrival
    (clock reading and connection) in turn. *)
Fixpoint accepted (playerId : string) (arrivals : list (Z * string))
    (h : InputHandler.t) : list Z :=
  match arrivals with
  | [] => []
  | (now, k) :: rest =>
      let '(ok, h') := InputHandler.shouldProcessInput now k h in
      if ok && String.eqb k playerId
      then now :: accepted playerId rest h'
      else accepted playerId rest h'
  end.

(** Every reading is at least the rate limit after the one before it,
    [prev] being before the first. *)
Fixpoint spaced (prev : Z) (times : list Z) : Prop :=
  match times with
  | [] => True
  | t :: rest => (InputHandler.INPUT_RATE_LIMIT <= t - prev)%Z /\ spaced t rest
  end.

(** A validated record as the object a client would send. *)
Definition toObject (validInput : list (string * bool)) : JS.value :=
  JS.object (map (fun kv => (fst kv, JS.boolean (snd kv))) validInput).

(** The payload of the [gameState] event of [io.on('connection')]
    (index.js, lines 43-49): the participant is added, then the state is
    read, and the socket identifier is attached. *)
Definition gameStateOnConnection (r1 r2 : float) (colour : string) (now : Z)
    (bodyId : nat) (socketId : string) (gm : GameManager.t)
    : GameManager.GameState * string :=
  let '(_, gm') :=
    GameManager.addPlayer r1 r2 colour now bodyId socketId 0 2 0 gm in
  (GameManager.getGameState now gm', socketId).

(** A server that has started with the flat-ground solver. *)
Definition started : Server.t := Server.startServer (Some Scenario.flatGround) 1000.

(** ... and to which "p1" has connected and sent an input. *)
Definition busy : Server.t :=
  Server.onPlayerInput 1500 "p1" (Scenario.press "left")
    (Server.onConnection 0.5 0.5 "#ff6b6b" 1200 5 "p1" started).

End Arrivals.

(* ===================================================================== *)
(** ** Ordering of binary64 values *)
(* ===================================================================== *)

Section FloatOrder.
Local Open Scope float_scope.

Lemma SFcompare_antisym (a b : spec_float) :
  SFcompare b a = CompOpp <$> SFcompare a b.
Proof.
  destruct a as [sa|sa| |sa ma ea], b as [sb|sb| |sb mb eb]; simpl;
    try destruct sa; try destruct sb; try reflexivity.
  - rewrite (Z.compare_antisym ea eb).
    destruct (ea ?= eb)%Z; simpl; try reflexivity.
    change (Pos.compare_cont Eq mb ma) with (Pos.compare mb ma).
    change (Pos.compare_cont Eq ma mb) with (Pos.compare ma mb).
    rewrite (Pos.compare_antisym ma mb). by destruct (ma ?= mb)%positive.
  - rewrite (Z.compare_antisym ea eb).
    destruct (ea ?= eb)%Z; simpl; try reflexivity.
    change (Pos.compare_cont Eq mb ma) with (Pos.compare mb ma).
    change (Pos.compare_cont Eq ma mb) with (Pos.compare ma mb).
    rewrite (Pos.compare_antisym ma mb). by destruct (ma ?= mb)%positive.
Qed.

Lemma ltb_asym (a b : float) : (a <? b) = true -> (b <? a) = false.
Proof.
  rewrite !ltb_spec. unfold SFltb. rewrite (SFcompare_antisym (Prim2SF a)).
  by destruct (SFcompare (Prim2SF a) (Prim2SF b)) as [[]|].
Qed.

Lemma ltb_leb (a b : float) : (a <? b) = true -> (a <=? b) = true.
Proof.
  rewrite ltb_spec, leb_spec. unfold SFltb, SFleb.
  by destruct (SFcompare (Prim2SF a) (Prim2SF b)) as [[]|].
Qed.

Lemma SFcompare_None (a b : spec_float) :
  SFcompare a b = None -> a = S754_nan \/ b = S754_nan.
Proof.
  destruct a as [sa|sa| |sa ma ea], b as [sb|sb| |sb mb eb]; simpl; auto;
    try destruct sa; try destruct sb; discriminate.
Qed.

Lemma SFcompare_refl (a : spec_float) :
  a <> S754_nan -> SFcompare a a = Some Eq.
Proof.
  destruct a as [s|s| |s m e]; simpl; try done; destruct s; try done;
    intros _; rewrite Z.compare_refl;
    change (Pos.compare_cont Eq m m) with (Pos.compare m m);
    by rewrite Pos.compare_refl.
Qed.

Lemma is_nan_spec (a : float) : is_nan a = true <-> Prim2SF a = S754_nan.
Proof.
  unfold is_nan. rewrite FloatAxioms.eqb_spec. unfold SFeqb. split.
  - intros H. destruct (Prim2SF a) as [s|s| |s m e] eqn:E; try done.
    all: by rewrite SFcompare_refl in H.
  - intros ->. reflexivity.
Qed.

Lemma ltb_nan_l (a b : float) : is_nan a = true -> (a <? b) = false.
Proof. rewrite is_nan_spec, ltb_spec. by intros ->. Qed.

Lemma ltb_nan_r (a b : float) : is_nan b = true -> (a <? b) = false.
Proof.
  rewrite is_nan_spec, ltb_spec. intros ->. unfold SFltb.
  by destruct (Prim2SF a).
Qed.

Lemma not_ltb_leb (a b : float) :
  is_nan a = false -> is_nan b = false -> (b <? a) = false -> (a <=? b) = true.
Proof.
  intros Ha Hb. rewrite ltb_spec, leb_spec. unfold SFltb, SFleb.
  rewrite (SFcompare_antisym (Prim2SF a)).
  destruct (SFcompare (Prim2SF a) (Prim2SF b)) as [[]|] eqn:E; try done.
  destruct (SFcompare_None _ _ E) as [H|H]; apply is_nan_spec in H; congruence.
Qed.
End FloatOrder.

(* ===================================================================== *)
(** ** One tick of a physics-backed participant *)
(* ===================================================================== *)

Section PlayerFacts.
Local Open Scope float_scope.

Lemma clampHorizontal_y (limit : float) (v : Vec3.t) :
  Vec3.y (Player.clampHorizontal limit v) = Vec3.y v.
Proof. unfold Player.clampHorizontal. by destruct (JS.gt _ _). Qed.

Lemma applyMovementForces_vertical (dt : float) (p : Player.t) (b : CANNON.Body) :
  Player.body p = Some b ->
  exists b',
    Player.body (Player.applyMovementForces dt p) = Some b'
    /\ Vec3.y (CANNON.velocity b')
       = (if Player.jump (Player.input p) && Player.onGround p
          then Player.JUMP_FORCE else Vec3.y (CANNON.velocity b))
    /\ Player.onGround (Player.applyMovementForces dt p)
       = Player.onGround p && negb (Player.jump (Player.input p))
    /\ Player.input (Player.applyMovementForces dt p) = Player.input p
    /\ CANNON.position b' = CANNON.position b
    /\ CANNON.angularVelocity b' = CANNON.angularVelocity b.
Proof.
  intros Hb. unfold Player.applyMovementForces. rewrite Hb.
  destruct (Player.targetVelocity (Player.input p)) as [targetX targetZ].
  destruct (Player.onGround p) eqn:Hg, (Player.jump (Player.input p)) eqn:Hj;
    simpl; rewrite ?Hg, ?Hj; simpl;
    eexists; repeat split; simpl; rewrite ?clampHorizontal_y; done.
Qed.

(** The physics branch of [update], step by step. *)
Lemma update_physics (now : Z) (dt : float) (pw : PhysicsWorld.t)
    (w : CANNON.World) (p : Player.t) (b : CANNON.Body) :
  Player.body p = Some b ->
  PhysicsWorld.isEnabled pw = true ->
  PhysicsWorld.world pw = Some w ->
  Player.update now (Some dt) pw p
  = Some (Player.set_lastUpdate now
            (Player.applyBoundaryConstraints
               (Player.stopRotation
                  (Player.applyFloatiness pw
                     (Player.applyMovementForces (Player.normalizeDeltaTime dt)
                        (Player.set_onGround (Player.groundContact w b)
                           (Player.syncFromBody p))))))).
Proof.
  intros Hb He Hw. unfold Player.update, Player.kinematic.
  rewrite Hb. unfold PhysicsWorld.isPhysicsEnabled. rewrite He. simpl.
  unfold Player.checkGroundContact, Player.syncFromBody. rewrite Hb. simpl.
  rewrite Hb. unfold PhysicsWorld.getWorld. rewrite Hw. reflexivity.
Qed.

Lemma applyFloatiness_body (pw : PhysicsWorld.t) (p : Player.t) (b : CANNON.Body) :
  Player.body p = Some b ->
  exists b',
    Player.body (Player.applyFloatiness pw p) = Some b'
    /\ CANNON.velocity b' = CANNON.velocity b
    /\ CANNON.position b' = CANNON.position b
    /\ CANNON.angularVelocity b' = CANNON.angularVelocity b.
Proof.
  intros Hb. unfold Player.applyFloatiness.
  destruct (negb _ && _); [destruct (PhysicsWorld.getWorld pw)|];
    unfold Player.on_body; simpl; rewrite ?Hb; simpl; eauto.
Qed.

Lemma applyFloatiness_flags (pw : PhysicsWorld.t) (p : Player.t) :
  Player.onGround (Player.applyFloatiness pw p) = Player.onGround p
  /\ Player.input (Player.applyFloatiness pw p) = Player.input p.
Proof.
  unfold Player.applyFloatiness.
  destruct (negb _ && _); [destruct (PhysicsWorld.getWorld pw)|]; done.
Qed.

End PlayerFacts.

Section JumpGate.
Local Open Scope float_scope.

(** One [update] of a physics-backed participant: [p] owns the body [b],
    the world is enabled and holds the solver world [w].  [p] is arbitrary:
    in particular it may be the state a previous tick left, with [jump]
    still held and the body wherever the solver has moved it since.

    The movement step is entered with the flag the ground probe has just
    computed.  It sets the body's vertical velocity to [JUMP_FORCE] when
    [jump] is asserted and the flag is set, and leaves the vertical
    velocity alone otherwise; it clears the flag whenever it jumps, so the
    gate [jump && onGround] is closed once the step is over.

    The whole tick returns, keeps the input record, ends with the flag
    cleared when [jump] is asserted, and has set the vertical velocity to
    the jump speed exactly when [jump] is asserted and the probe of this
    very tick reports ground contact; without that contact the vertical
    velocity is the one the tick started with (or 0 after the
    out-of-bounds reset). *)
Lemma jump_gate (now : Z) (dt : float) (pw : PhysicsWorld.t)
    (w : CANNON.World) (p : Player.t) (b : CANNON.Body) :
  Player.body p = Some b ->
  PhysicsWorld.isEnabled pw = true ->
  PhysicsWorld.world pw = Some w ->
  let held := Player.jump (Player.input p) in
  let q := Player.set_onGround (Player.groundContact w b) (Player.syncFromBody p) in
  let q' := Player.applyMovementForces (Player.normalizeDeltaTime dt) q in
  exists bq p' b',
    Player.body q' = Some bq
    /\ Vec3.y (CANNON.velocity bq)
       = (if held && Player.onGround q then Player.JUMP_FORCE
          else Vec3.y (CANNON.velocity b))
    /\ Player.onGround q' = Player.onGround q && negb held
    /\ Player.jump (Player.input q') && Player.onGround q' = false
    /\ Player.update now (Some dt) pw p = Some p'
    /\ Player.body p' = Some b'
    /\ Player.input p' = Player.input p
    /\ Player.onGround p' = Player.groundContact w b && negb held
    /\ Vec3.y (CANNON.velocity b')
       = (if Player.outOfBounds (CANNON.position b) then 0
          else if held && Player.groundContact w b then Player.JUMP_FORCE
          else Vec3.y (CANNON.velocity b)).
Proof.
  intros Hb He Hw held q q'.
  assert (Hq : Player.body q = Some b)
    by (unfold q, Player.syncFromBody; rewrite Hb; done).
  assert (Hqi : Player.input q = Player.input p)
    by (unfold q, Player.syncFromBody; rewrite Hb; done).
  destruct (applyMovementForces_vertical (Player.normalizeDeltaTime dt) q b Hq)
    as (bq & Hbq & Hvy & Hg & Hi & Hpos & Hang).
  fold q' in Hbq, Hg, Hi. rewrite Hqi in Hvy, Hg, Hi. fold held in Hvy, Hg.
  destruct (applyFloatiness_body pw q' bq Hbq) as (bf & Hbf & Hfv & Hfp & Hfa).
  destruct (applyFloatiness_flags pw q') as [Hfg Hfi].
  rewrite (update_physics now dt pw w p b Hb He Hw). fold q q'.
  exists bq. eexists. eexists. split; [exact Hbq|]. split; [exact Hvy|].
  split; [exact Hg|]. split.
  { rewrite Hg, Hi. fold held. by destruct held, (Player.onGround q). }
  split; [reflexivity|].
  unfold Player.applyBoundaryConstraints, Player.stopRotation, Player.on_body.
  simpl. rewrite Hbf. simpl. split; [reflexivity|].
  rewrite Hfi, Hi, Hfg, Hg. repeat split.
  rewrite Hfp, Hpos.
  destruct (Player.outOfBounds (CANNON.position b)); simpl; [done|].
  by rewrite Hfv, Hvy.
Qed.

(** In physics mode the grounded flag a participant carries into a tick
    is never read: the probe of line 149 overwrites it first. *)
Lemma update_overwrites_flag (now : Z) (deltaTime : option float)
    (pw : PhysicsWorld.t) (p : Player.t) (g : bool) :
  Player.kinematic pw p = false ->
  Player.update now deltaTime pw (Player.set_onGround g p)
  = Player.update now deltaTime pw p.
Proof.
  intros Hk. unfold Player.kinematic in Hk.
  destruct (Player.body p) as [b|] eqn:Hb; [|discriminate].
  unfold Player.update, Player.kinematic, Player.elapsed,
    Player.checkGroundContact, Player.syncFromBody.
  simpl. rewrite !Hb, !Hk. simpl. rewrite ?Hb.
  destruct (PhysicsWorld.getWorld pw); reflexivity.
Qed.

(** Claim C1 (grounded jump gate): a held jump fires again without a new
    ground contact.

    [p] is a physics-backed participant with [jump] held whose ray query
    reports a hit closer than 1.01, within bounds.  Its tick fires the
    jump: the vertical velocity becomes [JUMP_FORCE] and line 187 clears
    the grounded flag, while [jump] stays asserted.

    That cleared flag is what should hold the next jump back.  But the
    next tick, wherever the solver has taken the body in between ([b2]),
    gives the same result whatever the flag is ([g]): line 149 recomputes
    it from the ray query before the gate of line 185 reads it.  With
    [jump] still held the next tick sets the vertical velocity to
    [JUMP_FORCE] again exactly when its own ray query reports a hit closer
    than 1.01, and leaves it alone otherwise; the body need not have come
    down in between. *)
Theorem held_jump_fires_again (now1 now2 : Z) (dt1 dt2 : float)
    (pw : PhysicsWorld.t) (w : CANNON.World) (p : Player.t) (b : CANNON.Body) :
  Player.body p = Some b ->
  PhysicsWorld.isEnabled pw = true ->
  PhysicsWorld.world pw = Some w ->
  Player.jump (Player.input p) = true ->
  CANNON.hasHit (Player.groundProbe w b) = true ->
  JS.lt (CANNON.distance (Player.groundProbe w b)) 1.01 = true ->
  Player.outOfBounds (CANNON.position b) = false ->
  exists p1 b1,
    Player.update now1 (Some dt1) pw p = Some p1
    /\ Player.body p1 = Some b1
    /\ Vec3.y (CANNON.velocity b1) = Player.JUMP_FORCE
    /\ Player.onGround p1 = false
    /\ Player.jump (Player.input p1) = true
    /\ forall (g : bool) (b2 : CANNON.Body),
         Player.outOfBounds (CANNON.position b2) = false ->
         exists p2 b2',
           Player.update now2 (Some dt2) pw
             (Player.set_onGround g (Player.set_body (Some b2) p1)) = Some p2
           /\ Player.body p2 = Some b2'
           /\ Vec3.y (CANNON.velocity b2')
              = (if CANNON.hasHit (Player.groundProbe w b2)
                    && JS.lt (CANNON.distance (Player.groundProbe w b2)) 1.01
                 then Player.JUMP_FORCE
                 else Vec3.y (CANNON.velocity b2)).
Proof.
  intros Hb He Hw Hj Hhit Hnear Ho.
  assert (Hg : Player.groundContact w b = true).
  { change (CANNON.hasHit (Player.groundProbe w b)
            && JS.lt (CANNON.distance (Player.groundProbe w b)) 1.01 = true).
    by rewrite Hhit, Hnear. }
  destruct (jump_gate now1 dt1 pw w p b Hb He Hw)
    as (_ & p1 & b1 & _ & _ & _ & _ & Hu & Hb1 & Hi & Hg1 & Hv).
  cbv zeta in Hg1, Hv. rewrite Hj, Hg in Hg1, Hv. rewrite Ho in Hv. simpl in Hg1, Hv.
  exists p1, b1. split; [exact Hu|]. split; [exact Hb1|]. split; [exact Hv|].
  split; [exact Hg1|]. split; [by rewrite Hi|].
  intros g b2 Ho2.
  rewrite update_overwrites_flag
    by (unfold Player.kinematic, PhysicsWorld.isPhysicsEnabled; simpl; by rewrite He).
  destruct (jump_gate now2 dt2 pw w (Player.set_body (Some b2) p1) b2 eq_refl He Hw)
    as (_ & p2 & b2' & _ & _ & _ & _ & Hu2 & Hb2 & _ & _ & Hv2).
  cbv zeta in Hv2. simpl in Hv2. rewrite Hi, Hj, Ho2 in Hv2. simpl in Hv2.
  exists p2, b2'. split; [exact Hu2|]. split; [exact Hb2|exact Hv2].
Qed.

(** On the server's flat ground: the participant rests on the ground with
    [jump] held and its tick fires the jump.  One solver step later the
    body has left the ground and is rising, the flag is still the cleared
    one, and the next tick sets the jump speed again.  The same happens
    high in the air: the ray query answers there too, as the ray meets the
    participant's own box. *)
Lemma held_jump_fires_again_witness :
  exists p1 b1,
    Player.update 1016 (Some 0.016) Scenario.enabledWorld Scenario.jumper = Some p1
    /\ Player.body p1 = Some b1
    /\ Vec3.y (CANNON.velocity b1) = Player.JUMP_FORCE
    /\ Player.onGround p1 = false
    /\ (exists p2 b2,
          Player.update 1033 (Some 0.017) Scenario.enabledWorld
            (Player.set_onGround false (Player.set_body (Some Scenario.rising) p1))
          = Some p2
          /\ Player.body p2 = Some b2
          /\ Vec3.y (CANNON.velocity b2) = Player.JUMP_FORCE)
    /\ (exists p2 b2,
          Player.update 1033 (Some 0.017) Scenario.enabledWorld
            (Player.set_onGround false (Player.set_body (Some Scenario.airborne) p1))
          = Some p2
          /\ Player.body p2 = Some b2
          /\ Vec3.y (CANNON.velocity b2) = Player.JUMP_FORCE).
Proof.
  destruct (held_jump_fires_again 1016 1033 0.016 0.017 Scenario.enabledWorld
              Scenario.flatGround Scenario.jumper (Scenario.bodyAt 1 0 0.4 0)
              eq_refl eq_refl eq_refl eq_refl eq_refl eq_refl eq_refl)
    as (p1 & b1 & Hu & Hb & Hv & Hg & _ & Hnext).
  exists p1, b1. split; [exact Hu|]. split; [exact Hb|]. split; [exact Hv|].
  split; [exact Hg|].
  split; [exact (Hnext false Scenario.rising eq_refl)
         |exact (Hnext false Scenario.airborne eq_refl)].
Defined.

End JumpGate.

(* ===================================================================== *)
(** ** Clamping *)
(* ===================================================================== *)

Section Clamp.
Local Open Scope float_scope.

(** The value of [Math.max(-50, Math.min(50, v))]. *)
Lemma clamp50_cases (v : float) :
  let r := JS.Math_max (-50) (JS.Math_min 50 v) in
  (is_nan v = true /\ is_nan r = true)
  \/ (is_nan v = false /\ (50 <? v) = true /\ r = 50)
  \/ (is_nan v = false /\ (v <? -50) = true /\ r = -50)
  \/ (is_nan v = false /\ (50 <? v) = false /\ (v <? -50) = false /\ r = v).
Proof.
  unfold JS.Math_min, JS.Math_max. change (is_nan 50) with false.
  change (is_nan (-50)) with false. simpl.
  destruct (is_nan v) eqn:Hn; [left; done|right].
  destruct (50 <? v) eqn:H1; [left; done|right].
  assert (Hm : (if v <? 50 then v else v) = v) by (destruct (v <? 50); done).
  rewrite Hm, Hn.
  destruct (-50 <? v) eqn:H2.
  { right. repeat split; try done. by apply ltb_asym. }
  destruct (v <? -50) eqn:H3; [left; done|right]. done.
Qed.

Lemma clamp50_within (v : float) :
  let r := JS.Math_max (-50) (JS.Math_min 50 v) in
  JS.lt r (-50) = false /\ JS.gt r 50 = false
  /\ (is_nan v = false -> (-50 <=? r) = true /\ (r <=? 50) = true).
Proof.
  intros r. unfold JS.lt, JS.gt.
  destruct (clamp50_cases v) as [[Hv Hr]|[(Hv & H1 & Hr)|[(Hv & H1 & Hr)|(Hv & H1 & H2 & Hr)]]];
    fold r in Hr.
  - rewrite (ltb_nan_l r _ Hr), (ltb_nan_r _ r Hr).
    split; [done|]. split; [done|]. congruence.
  - rewrite Hr. done.
  - rewrite Hr. done.
  - rewrite Hr, H1, H2. split; [done|]. split; [done|]. intros _.
    split; apply not_ltb_leb; done.
Qed.

(** The value of [Math.max(0, v)]. *)
Lemma max0_cases (v : float) :
  JS.Math_max 0 v = nan \/ JS.Math_max 0 v = 0
  \/ ((0 <? v) = true /\ is_nan v = false /\ JS.Math_max 0 v = v).
Proof.
  unfold JS.Math_max. change (is_nan 0) with false. simpl.
  destruct (is_nan v); [by left|].
  destruct (0 <? v); [by right; right|].
  right; left. by destruct (v <? 0).
Qed.

Lemma max0_idempotent (v : float) :
  JS.Math_max 0 (JS.Math_max 0 v) = JS.Math_max 0 v.
Proof.
  destruct (max0_cases v) as [H|[H|(_ & _ & H)]]; rewrite H;
    [reflexivity|reflexivity|exact H].
Qed.

End Clamp.

(* ===================================================================== *)
(** ** One tick of a kinematic participant *)
(* ===================================================================== *)

Section Kinematic.
Local Open Scope float_scope.

(** The kinematic branch of [update]: the elapsed time goes through the
    conversion of line 71 and then through the one of line 114. *)
Lemma update_kinematic (now : Z) (deltaTime : option float)
    (pw : PhysicsWorld.t) (p : Player.t) :
  Player.kinematic pw p = true ->
  Player.update now deltaTime pw p
  = Some (Player.set_lastUpdate now
            (Player.simpleMovementStep
               (Player.normalizeDeltaTime
                  (Player.normalizeDeltaTime (Player.elapsed now deltaTime p))) p)).
Proof. intros Hk. unfold Player.update. by rewrite Hk. Qed.

Lemma simpleMovementStep_fields (dt : float) (p : Player.t) :
  let p' := Player.simpleMovementStep dt p in
  Player.body p' = Player.body p
  /\ Player.input p' = Player.input p
  /\ Player.onGround p' = Player.onGround p
  /\ Vec3.y (Player.velocity p') = Vec3.y (Player.velocity p)
  /\ Vec3.y (Player.position p') = JS.Math_max 0 (Vec3.y (Player.position p))
  /\ Vec3.x (Player.position p')
     = JS.Math_max (-50)
         (JS.Math_min 50 (Vec3.x (Player.position p) + Vec3.x (Player.velocity p') * dt))
  /\ Vec3.z (Player.position p')
     = JS.Math_max (-50)
         (JS.Math_min 50 (Vec3.z (Player.position p) + Vec3.z (Player.velocity p') * dt)).
Proof.
  unfold Player.simpleMovementStep.
  destruct (Player.targetVelocity (Player.input p)) as [targetX targetZ]. done.
Qed.

End Kinematic.

Section Boundary.
Local Open Scope float_scope.

(** Claim C2 does not hold as stated: the kinematic branch does not clamp
    to the radius of the physics branch.  A kinematic participant at rest at
    [x = 49] stays at 49 after a tick, outside the radius 48 at which a
    physics-backed body is reset. *)
Lemma fallback_clamp_not_physics_radius :
  exists p',
    Player.update 1016 (Some 0.016) Scenario.disabledWorld
      (Scenario.walker 49 (Scenario.holding false false false false false)) = Some p'
    /\ Vec3.x (Player.position p') = 49
    /\ JS.gt (JS.Math_abs (Vec3.x (Player.position p'))) 48 = true.
Proof. eexists. split; [reflexivity|]. split; reflexivity. Qed.

(** Claim C2, amended (boundary recovery).  After one [update]:
    a physics-backed participant whose body is more than 48 away from the
    origin on the x or the z axis, or below height -10, has its body at the
    respawn point (0, 5, 0) with zero velocity and zero angular velocity;
    a kinematic participant is never moved to the respawn point: its body
    (if any) is untouched, its horizontal position is the integrated
    position clamped component-wise into [-50, 50] (a bound of its own, not
    the radius 48 of the physics branch) and its height is clamped up
    to 0. *)
Theorem boundary_recovery (now : Z) (dt : float) (pw : PhysicsWorld.t) (p : Player.t) :
  (forall (w : CANNON.World) (b : CANNON.Body),
      Player.body p = Some b ->
      PhysicsWorld.isEnabled pw = true ->
      PhysicsWorld.world pw = Some w ->
      Player.outOfBounds (CANNON.position b) = true ->
      exists p' b',
        Player.update now (Some dt) pw p = Some p'
        /\ Player.body p' = Some b'
        /\ CANNON.position b' = Vec3.mk 0 5 0
        /\ CANNON.velocity b' = Vec3.mk 0 0 0
        /\ CANNON.angularVelocity b' = Vec3.mk 0 0 0)
  /\ (Player.kinematic pw p = true ->
      exists p',
        Player.update now (Some dt) pw p = Some p'
        /\ Player.body p' = Player.body p
        /\ (let used := Player.normalizeDeltaTime (Player.normalizeDeltaTime dt) in
            let q := Player.position p in
            let v' := Player.velocity p' in
            Player.position p'
            = Vec3.mk (JS.Math_max (-50) (JS.Math_min 50 (Vec3.x q + Vec3.x v' * used)))
                      (JS.Math_max 0 (Vec3.y q))
                      (JS.Math_max (-50) (JS.Math_min 50 (Vec3.z q + Vec3.z v' * used))))
        /\ JS.lt (Vec3.x (Player.position p')) (-50) = false
        /\ JS.gt (Vec3.x (Player.position p')) 50 = false
        /\ JS.lt (Vec3.z (Player.position p')) (-50) = false
        /\ JS.gt (Vec3.z (Player.position p')) 50 = false).
Proof.
  split.
  - intros w b Hb He Hw Hout.
    rewrite (update_physics now dt pw w p b Hb He Hw).
    set (q := Player.set_onGround _ _).
    assert (Hq : Player.body q = Some b)
      by (unfold q, Player.syncFromBody; rewrite Hb; done).
    destruct (applyMovementForces_vertical (Player.normalizeDeltaTime dt) q b Hq)
      as (bq & Hbq & _ & _ & _ & Hpos & _).
    destruct (applyFloatiness_body pw _ bq Hbq) as (bf & Hbf & _ & Hfp & _).
    eexists. eexists. split; [reflexivity|].
    unfold Player.applyBoundaryConstraints, Player.stopRotation, Player.on_body.
    simpl. rewrite Hbf. simpl. split; [reflexivity|].
    rewrite Hfp, Hpos, Hout. done.
  - intros Hk. rewrite (update_kinematic now (Some dt) pw p Hk). simpl.
    set (used := Player.normalizeDeltaTime (Player.normalizeDeltaTime dt)).
    destruct (simpleMovementStep_fields used p) as (Hb & _ & _ & _ & Hy & Hx & Hz).
    eexists. split; [reflexivity|]. simpl.
    split; [exact Hb|]. split.
    { destruct (Player.position (Player.simpleMovementStep used p)) as [x' y' z'].
      simpl in Hy, Hx, Hz. by rewrite Hx, Hy, Hz. }
    rewrite Hx, Hz.
    destruct (clamp50_within
                (Vec3.x (Player.position p)
                 + Vec3.x (Player.velocity (Player.simpleMovementStep used p)) * used))
      as (? & ? & _).
    destruct (clamp50_within
                (Vec3.z (Player.position p)
                 + Vec3.z (Player.velocity (Player.simpleMovementStep used p)) * used))
      as (? & ? & _).
    done.
Qed.

(** A body at [x = 60] is reset; a kinematic participant walking out at
    [x = 49.99] stops at 50. *)
Lemma boundary_recovery_witness :
  (exists p' b',
      Player.update 1016 (Some 0.016) Scenario.enabledWorld Scenario.stray = Some p'
      /\ Player.body p' = Some b'
      /\ CANNON.position b' = Vec3.mk 0 5 0
      /\ CANNON.velocity b' = Vec3.mk 0 0 0
      /\ CANNON.angularVelocity b' = Vec3.mk 0 0 0)
  /\ (exists p',
         Player.update 1016 (Some 0.016) Scenario.disabledWorld
           (Scenario.walker 49.99 (Scenario.holding false true false false false)) = Some p'
         /\ Player.body p' = None
         /\ Vec3.x (Player.position p') = 50).
Proof.
  split.
  - apply (proj1 (boundary_recovery 1016 0.016 Scenario.enabledWorld Scenario.stray)
             Scenario.flatGround (Scenario.bodyAt 2 60 0.4 0));
      reflexivity.
  - destruct (proj2 (boundary_recovery 1016 0.016 Scenario.disabledWorld
                       (Scenario.walker 49.99 (Scenario.holding false true false false false)))
                eq_refl) as (p' & Hu & Hb & Hpos & _).
    exists p'. split; [exact Hu|]. split; [exact Hb|].
    rewrite Hpos. injection Hu as <-. reflexivity.
Defined.

End Boundary.

Section Diagonal.
Local Open Scope float_scope.

(** Claim C3 (diagonal normalization).  For every combination of the
    directional intents, the target horizontal velocity that both movement
    modes compute has magnitude at most [SPEED]: as JavaScript measures it
    ([Math.hypot(targetX, targetZ) <= SPEED]) and for the exact rational
    values of the two components ([targetX^2 + targetZ^2 <= SPEED^2]). *)
Theorem diagonal_normalization (i : Player.Input) :
  let '(targetX, targetZ) := Player.targetVelocity i in
  (JS.Math_hypot targetX targetZ <=? Player.SPEED) = true
  /\ exists qx qz qs : Q,
       JS.exact targetX = Some qx /\ JS.exact targetZ = Some qz
       /\ JS.exact Player.SPEED = Some qs
       /\ (qx * qx + qz * qz <= qs * qs)%Q.
Proof.
  destruct i as [[] [] [] [] j];
    (split; [reflexivity|]);
    (eexists; eexists; eexists);
    (split; [vm_compute; reflexivity|]);
    (split; [vm_compute; reflexivity|]);
    (split; [vm_compute; reflexivity|]);
    vm_compute; discriminate.
Qed.

End Diagonal.

Section ElapsedTime.
Local Open Scope float_scope.

(** Above the threshold the statement divides by 1000. *)
Lemma normalizeDeltaTime_ms (deltaTime : float) :
  JS.gt deltaTime 0.1 = true ->
  Player.normalizeDeltaTime deltaTime = deltaTime / 1000.
Proof. unfold Player.normalizeDeltaTime. by intros ->. Qed.

(** Claim C4 at [deltaTime = 200] (milliseconds).  The kinematic branch
    integrates with [200 / 1000 / 1000]: [update] converts at line 71 and
    [updateSimpleMovement] converts the result again at line 114, since
    0.2 is above the threshold too.  The participant holding [left] ends
    at [x = -0.001728] with velocity -8.64, where one conversion gives
    velocity -2400 and the clamped position -50.  The physics branch at
    the same [deltaTime] runs its movement step with [200 / 1000]. *)
Theorem fallback_delta_converted_twice :
  JS.gt 200 0.1 = true
  /\ Player.update 1200 (Some 200) Scenario.disabledWorld Scenario.leftWalker
     = Some (Player.set_lastUpdate 1200
               (Player.simpleMovementStep (200 / 1000 / 1000) Scenario.leftWalker))
  /\ Player.update 1200 (Some 200) Scenario.disabledWorld Scenario.leftWalker
     <> Some (Player.set_lastUpdate 1200
                (Player.simpleMovementStep (200 / 1000) Scenario.leftWalker))
  /\ (exists p',
        Player.update 1200 (Some 200) Scenario.disabledWorld Scenario.leftWalker = Some p'
        /\ Vec3.x (Player.velocity p') = -8.6400000000000006
        /\ Vec3.x (Player.position p') = -0.0017280000000000002)
  /\ Vec3.x (Player.velocity
               (Player.simpleMovementStep (200 / 1000) Scenario.leftWalker)) = -2400
  /\ Vec3.x (Player.position
               (Player.simpleMovementStep (200 / 1000) Scenario.leftWalker)) = -50
  /\ Player.update 1200 (Some 200) Scenario.enabledWorld Scenario.jumper
     = Some (Player.set_lastUpdate 1200
               (Player.applyBoundaryConstraints
                  (Player.stopRotation
                     (Player.applyFloatiness Scenario.enabledWorld
                        (Player.applyMovementForces (200 / 1000)
                           (Player.set_onGround true
                              (Player.syncFromBody Scenario.jumper))))))).
Proof.
  split; [reflexivity|]. split; [reflexivity|]. split.
  { intros H. apply (f_equal (fun o => Vec3.x <$> (Player.position <$> o))) in H.
    vm_compute in H. discriminate H. }
  split.
  { eexists. split; [reflexivity|]. split; reflexivity. }
  split; [reflexivity|]. split; reflexivity.
Qed.

End ElapsedTime.

Section Fallback.
Local Open Scope float_scope.

Lemma assoc_filter_ne {A : Type} (key skip : string) (m : list (string * A)) :
  key <> skip ->
  JS.assoc key (List.filter (fun kv => negb (String.eqb (fst kv) skip)) m)
  = JS.assoc key m.
Proof.
  intros Hne. induction m as [|[k v] m IH]; [done|]. simpl.
  destruct (String.eqb_spec k skip) as [->|Hk]; simpl.
  - rewrite IH. destruct (String.eqb_spec skip key) as [<-|]; done.
  - by rewrite IH.
Qed.

Lemma sameButJump_refl (p : Player.t) : Trace.sameButJump p p.
Proof. by repeat split. Qed.

Lemma sameButJump_updateInput (m : list (string * bool)) (p q : Player.t) :
  Trace.sameButJump p q ->
  Trace.sameButJump
    (Player.updateInput m p)
    (Player.updateInput
       (List.filter (fun kv => negb (String.eqb (fst kv) "jump")) m) q).
Proof.
  intros (?&?&?&?&?&?&?&Hl&Hr&Hf&Hb). unfold Trace.sameButJump, Player.updateInput.
  simpl. rewrite !assoc_filter_ne by done. rewrite Hl, Hr, Hf, Hb. done.
Qed.

Lemma targetVelocity_sameButJump (p q : Player.t) :
  Trace.sameButJump p q ->
  Player.targetVelocity (Player.input p) = Player.targetVelocity (Player.input q).
Proof.
  intros (_&_&_&_&_&_&_&Hl&Hr&Hf&Hb). unfold Player.targetVelocity.
  by rewrite Hl, Hr, Hf, Hb.
Qed.

Lemma sameButJump_simpleMovementStep (dt : float) (p q : Player.t) :
  Trace.sameButJump p q ->
  Trace.sameButJump (Player.simpleMovementStep dt p) (Player.simpleMovementStep dt q).
Proof.
  intros H. pose proof (targetVelocity_sameButJump p q H) as Ht.
  destruct H as (?&?&?&?&Hp&Hv&?&?&?&?&?).
  unfold Player.simpleMovementStep. rewrite <- Ht, <- Hp, <- Hv.
  destruct (Player.targetVelocity (Player.input p)). by repeat split.
Qed.

Lemma kinematic_sameButJump (pw : PhysicsWorld.t) (p q : Player.t) :
  Trace.sameButJump p q -> Player.kinematic pw q = Player.kinematic pw p.
Proof.
  intros (_&_&_&_&_&_&Hb&_). unfold Player.kinematic. by rewrite Hb.
Qed.

Lemma run_kinematic (pw : PhysicsWorld.t) (acts : list Trace.action) :
  forall p q : Player.t,
    Player.kinematic pw p = true ->
    Trace.sameButJump p q ->
    exists p' q',
      Trace.run pw acts p = Some p'
      /\ Trace.run pw (map Trace.withoutJump acts) q = Some q'
      /\ Player.body p' = Player.body p
      /\ Vec3.y (Player.velocity p') = Vec3.y (Player.velocity p)
      /\ Vec3.y (Player.position p')
         = (if existsb Trace.isTick acts
            then JS.Math_max 0 (Vec3.y (Player.position p))
            else Vec3.y (Player.position p))
      /\ Trace.sameButJump p' q'.
Proof.
  induction acts as [|[now deltaTime|m] acts IH]; intros p q Hk Hpq.
  - exists p, q. do 5 (split; [reflexivity|]). exact Hpq.
  - pose proof (kinematic_sameButJump pw p q Hpq) as Hkq. rewrite Hk in Hkq.
    cbn [Trace.run map Trace.withoutJump existsb Trace.isTick orb].
    rewrite (update_kinematic now deltaTime pw p Hk),
            (update_kinematic now deltaTime pw q Hkq).
    cbn [mbind option_bind].
    assert (He : Player.elapsed now deltaTime q = Player.elapsed now deltaTime p).
    { destruct Hpq as (_&_&Hl&_). unfold Player.elapsed. by rewrite Hl. }
    rewrite He.
    set (used := Player.normalizeDeltaTime (Player.normalizeDeltaTime _)).
    destruct (simpleMovementStep_fields used p) as (Hb & _ & _ & Hvy & Hy & _).
    set (p1 := Player.set_lastUpdate now (Player.simpleMovementStep used p)).
    set (q1 := Player.set_lastUpdate now (Player.simpleMovementStep used q)).
    assert (Hk1 : Player.kinematic pw p1 = true).
    { unfold Player.kinematic in *. simpl. by rewrite Hb. }
    assert (H1 : Trace.sameButJump p1 q1).
    { destruct (sameButJump_simpleMovementStep used p q Hpq)
        as (?&?&?&?&?&?&?&?&?&?&?). by repeat split. }
    destruct (IH p1 q1 Hk1 H1) as (p' & q' & Hr & Hrq & Hb' & Hvy' & Hy' & Hs).
    exists p', q'. split; [exact Hr|]. split; [exact Hrq|].
    split; [by rewrite Hb'|]. split; [by rewrite Hvy'|]. split; [|exact Hs].
    rewrite Hy'. simpl. rewrite Hy.
    destruct (existsb Trace.isTick acts); [apply max0_idempotent|done].
  - cbn [Trace.run map Trace.withoutJump existsb Trace.isTick orb].
    assert (Hk1 : Player.kinematic pw (Player.updateInput m p) = true) by done.
    destruct (IH _ _ Hk1 (sameButJump_updateInput m p q Hpq))
      as (p' & q' & Hr & Hrq & Hb' & Hvy' & Hy' & Hs).
    exists p', q'. do 5 (split; [assumption|]). exact Hs.
Qed.

(** Claim C10 (the kinematic branch has no vertical dynamics).  Over any
    history of ticks (with any elapsed time, numeric or not) and input
    messages (any records), a participant in kinematic mode keeps its
    vertical velocity, and its height is its initial height, clamped up to
    0 once a tick has run.  Erasing every mention of [jump] from the
    history, and starting from a participant that differs at most in the
    [jump] intent, yields the same participant up to the [jump] intent:
    same position, velocity, grounded flag, body and timestamps. *)
Theorem fallback_vertical_untouched (pw : PhysicsWorld.t)
    (acts : list Trace.action) (p q : Player.t) :
  Player.kinematic pw p = true ->
  Trace.sameButJump p q ->
  exists p' q',
    Trace.run pw acts p = Some p'
    /\ Vec3.y (Player.velocity p') = Vec3.y (Player.velocity p)
    /\ Vec3.y (Player.position p')
       = (if existsb Trace.isTick acts
          then JS.Math_max 0 (Vec3.y (Player.position p))
          else Vec3.y (Player.position p))
    /\ Trace.run pw (map Trace.withoutJump acts) q = Some q'
    /\ Trace.sameButJump p' q'.
Proof.
  intros Hk Hpq.
  destruct (run_kinematic pw acts p q Hk Hpq) as (p' & q' & ? & ? & ? & ? & ? & ?).
  exists p', q'. do 4 (split; [assumption|]). assumption.
Qed.


(** A participant constructed without physics, then told to jump and
    walk left, then updated twice: vertical velocity 0, height 2. *)
Lemma fallback_vertical_untouched_witness :
  exists p',
    Trace.run Scenario.disabledWorld
      [Trace.message [("jump", true); ("left", true)];
       Trace.tick 1016 (Some 0.016); Trace.tick 1033 None] Scenario.fresh = Some p'
    /\ Vec3.y (Player.velocity p') = 0
    /\ Vec3.y (Player.position p') = 2.
Proof.
  destruct (fallback_vertical_untouched Scenario.disabledWorld
              [Trace.message [("jump", true); ("left", true)];
               Trace.tick 1016 (Some 0.016); Trace.tick 1033 None]
              Scenario.fresh Scenario.fresh eq_refl
              (sameButJump_refl Scenario.fresh))
    as (p' & _ & Hr & Hv & Hy & _).
  exists p'. split; [exact Hr|]. split; [exact Hv|exact Hy].
Defined.
End Fallback.

(* ===================================================================== *)
(** ** The input handler *)
(* ===================================================================== *)

Section Input.

Lemma validate_loop (inputData : JS.value) (keys : list string) :
  forall acc : list (string * bool),
    foldl (fun (validatedInput : list (string * bool)) key =>
             if JS.has_key key inputData
             then (validatedInput ++ [(key, JS.ToBoolean (JS.get inputData key))])%list
             else validatedInput) acc keys
    = (acc ++ map (fun key => (key, JS.ToBoolean (JS.get inputData key)))
                  (List.filter (fun key => JS.has_key key inputData) keys))%list.
Proof.
  induction keys as [|key keys IH]; intros acc; simpl.
  - by rewrite app_nil_r.
  - rewrite IH. destruct (JS.has_key key inputData); simpl; [|done].
    by rewrite <- app_assoc.
Qed.

(** Claim C7 (validation).  [validateInput] rejects exactly the values
    that are not structured records; for a structured record it returns
    the normal form: one entry for each of the five recognized keys that
    the raw input has, holding the value coerced to boolean, and nothing
    else. *)
Theorem validateInput_spec (inputData : JS.value) :
  InputHandler.validateInput inputData
  = (if InputHandler.structuredRecord inputData
     then Some (InputHandler.normalized inputData) else None)
  /\ (InputHandler.validateInput inputData = None
      <-> InputHandler.structuredRecord inputData = false)
  /\ (forall (key : string) (b : bool),
        In (key, b) (InputHandler.normalized inputData)
        <-> In key InputHandler.validInputs
            /\ JS.has_key key inputData = true
            /\ b = JS.ToBoolean (JS.get inputData key)).
Proof.
  assert (Heq : InputHandler.validateInput inputData
                = (if InputHandler.structuredRecord inputData
                   then Some (InputHandler.normalized inputData) else None)).
  { unfold InputHandler.validateInput, InputHandler.normalized.
    rewrite validate_loop.
    destruct inputData as [| |b|n|s|props|elems]; try reflexivity.
    - by destruct b.
    - simpl. by destruct (negb (is_zero n || is_nan n)).
    - simpl. by destruct (negb (s =? "")%string). }
  split; [exact Heq|]. split.
  - rewrite Heq. by destruct (InputHandler.structuredRecord inputData).
  - intros key b. unfold InputHandler.normalized. rewrite in_map_iff. split.
    + intros (k & [= <- <-] & Hin). apply filter_In in Hin as [Hin Hk]. done.
    + intros (Hin & Hk & ->). exists key. split; [done|].
      apply filter_In. done.
Qed.

Lemma shouldProcessInput_accept (now : Z) (playerId : string) (h : InputHandler.t) :
  (InputHandler.INPUT_RATE_LIMIT
   <= now - default 0 (InputHandler.lastInputTime h !! playerId))%Z ->
  InputHandler.shouldProcessInput now playerId h
  = (true, {| InputHandler.lastInputTime :=
                <[playerId := now]> (InputHandler.lastInputTime h) |}).
Proof.
  intros H. unfold InputHandler.shouldProcessInput.
  destruct (Z.geb_spec (now - default 0 (InputHandler.lastInputTime h !! playerId))
                       InputHandler.INPUT_RATE_LIMIT); [done|lia].
Qed.

Lemma shouldProcessInput_reject (now : Z) (playerId : string) (h : InputHandler.t) :
  (now - default 0 (InputHandler.lastInputTime h !! playerId)
   < InputHandler.INPUT_RATE_LIMIT)%Z ->
  InputHandler.shouldProcessInput now playerId h = (false, h).
Proof.
  intros H. unfold InputHandler.shouldProcessInput.
  destruct (Z.geb_spec (now - default 0 (InputHandler.lastInputTime h !! playerId))
                       InputHandler.INPUT_RATE_LIMIT); [lia|done].
Qed.

(** Claim C6 (no side effect on rejection).  When [processInput] returns
    [false], because validation failed or because the rate limit refused,
    the handler's bookkeeping and the participant are what they were; when
    it returns [true], the input passed validation and the rate limit, the
    participant is the result of [updateInput] on the validated record,
    and the bookkeeping records this arrival. *)
Theorem processInput_rejection_no_effect (now : Z) (playerId : string)
    (inputData : JS.value) (player player' : Player.t)
    (h h' : InputHandler.t) (applied : bool) :
  InputHandler.processInput now playerId inputData player h = (applied, h', player') ->
  if applied then
    exists validInput,
      InputHandler.validateInput inputData = Some validInput
      /\ (InputHandler.INPUT_RATE_LIMIT
          <= now - default 0 (InputHandler.lastInputTime h !! playerId))%Z
      /\ player' = Player.updateInput validInput player
      /\ InputHandler.lastInputTime h'
         = <[playerId := now]> (InputHandler.lastInputTime h)
  else
    h' = h /\ player' = player
    /\ (InputHandler.validateInput inputData = None
        \/ (now - default 0 (InputHandler.lastInputTime h !! playerId)
            < InputHandler.INPUT_RATE_LIMIT)%Z).
Proof.
  unfold InputHandler.processInput.
  destruct (InputHandler.validateInput inputData) as [validInput|].
  - destruct (Z_lt_le_dec
                (now - default 0 (InputHandler.lastInputTime h !! playerId))
                InputHandler.INPUT_RATE_LIMIT) as [Hlt|Hle].
    + rewrite (shouldProcessInput_reject _ _ _ Hlt). simpl.
      intros [= <- <- <-]. auto.
    + rewrite (shouldProcessInput_accept _ _ _ Hle). simpl.
      intros [= <- <- <-]. exists validInput. done.
  - intros [= <- <- <-]. auto.
Qed.

(** Claim C5, amended (rate limiting).  The interval is measured from the
    last accepted input of the connection.  Two well-formed records, the
    first of which is itself accepted (it arrives at least 16 ms after the
    last accepted one, or is the connection's first): the first is
    applied; the second is dropped when it arrives less than 16 ms after
    the first, and applied as well when it arrives 16 ms or more after. *)
Theorem rate_limit_after_accepted (t1 t2 : Z) (playerId : string)
    (raw1 raw2 : JS.value) (v1 v2 : list (string * bool))
    (player : Player.t) (h : InputHandler.t) :
  InputHandler.validateInput raw1 = Some v1 ->
  InputHandler.validateInput raw2 = Some v2 ->
  (InputHandler.INPUT_RATE_LIMIT
   <= t1 - default 0 (InputHandler.lastInputTime h !! playerId))%Z ->
  exists h1 h2,
    InputHandler.processInput t1 playerId raw1 player h
    = (true, h1, Player.updateInput v1 player)
    /\ InputHandler.processInput t2 playerId raw2 (Player.updateInput v1 player) h1
       = (if (t2 - t1 <? InputHandler.INPUT_RATE_LIMIT)%Z
          then (false, h1, Player.updateInput v1 player)
          else (true, h2, Player.updateInput v2 (Player.updateInput v1 player))).
Proof.
  intros Hv1 Hv2 Hacc. unfold InputHandler.processInput. rewrite Hv1, Hv2.
  rewrite (shouldProcessInput_accept _ _ _ Hacc). simpl.
  set (h1 := {| InputHandler.lastInputTime := _ |}).
  assert (Hlast : default 0%Z (InputHandler.lastInputTime h1 !! playerId) = t1)
    by (unfold h1; simpl; by rewrite lookup_insert_eq).
  exists h1. eexists. split; [reflexivity|].
  destruct (Z.ltb_spec (t2 - t1) InputHandler.INPUT_RATE_LIMIT) as [Hlt|Hge].
  - rewrite shouldProcessInput_reject by (rewrite Hlast; done). done.
  - rewrite shouldProcessInput_accept by (rewrite Hlast; done). simpl. reflexivity.
Qed.


(** The same message 10 ms after an accepted one (dropped, nothing
    changes) and 40 ms after it (applied). *)
Lemma processInput_rejection_no_effect_witness :
  (snd (fst (InputHandler.processInput 1010 "p2" (Scenario.press "left")
               (Scenario.walker 0 Scenario.idle) (Scenario.handlerAt 1000)))
   = Scenario.handlerAt 1000
   /\ snd (InputHandler.processInput 1010 "p2" (Scenario.press "left")
             (Scenario.walker 0 Scenario.idle) (Scenario.handlerAt 1000))
      = Scenario.walker 0 Scenario.idle
   /\ (InputHandler.validateInput (Scenario.press "left") = None
       \/ (1010 - default 0 (InputHandler.lastInputTime (Scenario.handlerAt 1000) !! "p2")
           < InputHandler.INPUT_RATE_LIMIT)%Z))
  /\ (exists validInput,
         InputHandler.validateInput (Scenario.press "left") = Some validInput
         /\ (InputHandler.INPUT_RATE_LIMIT
             <= 1040 - default 0 (InputHandler.lastInputTime (Scenario.handlerAt 1000) !! "p2"))%Z
         /\ snd (InputHandler.processInput 1040 "p2" (Scenario.press "left")
                   (Scenario.walker 0 Scenario.idle) (Scenario.handlerAt 1000))
            = Player.updateInput validInput (Scenario.walker 0 Scenario.idle)
         /\ InputHandler.lastInputTime
              (snd (fst (InputHandler.processInput 1040 "p2" (Scenario.press "left")
                           (Scenario.walker 0 Scenario.idle) (Scenario.handlerAt 1000))))
            = <["p2" := 1040%Z]> (InputHandler.lastInputTime (Scenario.handlerAt 1000))).
Proof.
  split.
  - exact (processInput_rejection_no_effect 1010 "p2" (Scenario.press "left")
             (Scenario.walker 0 Scenario.idle) _ (Scenario.handlerAt 1000) _ false
             eq_refl).
  - exact (processInput_rejection_no_effect 1040 "p2" (Scenario.press "left")
             (Scenario.walker 0 Scenario.idle) _ (Scenario.handlerAt 1000) _ true
             eq_refl).
Defined.

(** Claim C5 does not hold as stated.  Three messages of one connection
    arrive at 1000, 1010 and 1020.  The last two are 10 ms apart, less
    than the interval; yet the first of that pair (1010) is dropped, being
    too close to the accepted 1000, and the second (1020) is applied. *)
Lemma rate_limit_counterexample :
  exists (h1 h2 h3 : InputHandler.t) (p1 p2 p3 : Player.t),
    InputHandler.processInput 1000 "p2" (Scenario.press "left")
      (Scenario.walker 0 Scenario.idle) InputHandler.new = (true, h1, p1)
    /\ InputHandler.processInput 1010 "p2" (Scenario.press "right") p1 h1 = (false, h2, p2)
    /\ InputHandler.processInput 1020 "p2" (Scenario.press "forward") p2 h2 = (true, h3, p3)
    /\ (1020 - 1010 < InputHandler.INPUT_RATE_LIMIT)%Z
    /\ Player.input p2 = Scenario.holding true false false false false
    /\ Player.input p3 = Scenario.holding true false true false false.
Proof.
  do 6 eexists. split; [reflexivity|]. split; [vm_compute; reflexivity|].
  split; [vm_compute; reflexivity|]. split; [reflexivity|]. split; reflexivity.
Qed.

(** The first two messages of a connection, 10 ms apart. *)
Lemma rate_limit_after_accepted_witness :
  exists h1 h2,
    InputHandler.processInput 1000 "p2" (Scenario.press "left")
      (Scenario.walker 0 Scenario.idle) InputHandler.new
    = (true, h1, Player.updateInput [("left", true)] (Scenario.walker 0 Scenario.idle))
    /\ InputHandler.processInput 1010 "p2" (Scenario.press "right")
         (Player.updateInput [("left", true)] (Scenario.walker 0 Scenario.idle)) h1
       = (if (1010 - 1000 <? InputHandler.INPUT_RATE_LIMIT)%Z
          then (false, h1,
                Player.updateInput [("left", true)] (Scenario.walker 0 Scenario.idle))
          else (true, h2,
                Player.updateInput [("right", true)]
                  (Player.updateInput [("left", true)] (Scenario.walker 0 Scenario.idle)))).
Proof.
  apply (rate_limit_after_accepted 1000 1010 "p2" (Scenario.press "left")
           (Scenario.press "right") [("left", true)] [("right", true)]
           (Scenario.walker 0 Scenario.idle) InputHandler.new);
    [reflexivity|reflexivity|].
  vm_compute. discriminate.
Defined.

End Input.

(* ===================================================================== *)
(** ** The game loop and the registry *)
(* ===================================================================== *)

Section Loop.
Local Open Scope float_scope.

Lemma update_total (now : Z) (deltaTime : option float)
    (pw : PhysicsWorld.t) (p : Player.t) :
  PhysicsWorld.consistent pw ->
  exists p', Player.update now deltaTime pw p = Some p'.
Proof.
  intros Hc. destruct (Player.kinematic pw p) eqn:Hk.
  - rewrite (update_kinematic now deltaTime pw p Hk). eauto.
  - unfold Player.update. rewrite Hk.
    unfold Player.kinematic in Hk.
    destruct (Player.body p) as [b|] eqn:Hb; [|done].
    apply negb_false_iff in Hk. destruct (Hc Hk) as [w Hw].
    unfold Player.checkGroundContact, Player.syncFromBody. rewrite Hb. simpl.
    rewrite Hb. unfold PhysicsWorld.getWorld. rewrite Hw. simpl. eauto.
Qed.

Lemma updateAllPlayers_total (now : Z) (deltaTime : float) (pw : PhysicsWorld.t)
    (m : list (string * Player.t)) :
  PhysicsWorld.consistent pw ->
  exists m',
    GameManager.updateAllPlayers now deltaTime pw m = Some m'
    /\ map fst m' = map fst m.
Proof.
  intros Hc. induction m as [|[k player] m (m' & IH & Hkeys)]; simpl.
  - by exists [].
  - destruct (update_total now (Some deltaTime) pw player Hc) as [player' ->].
    simpl. rewrite IH. simpl. exists ((k, player') :: m'). simpl.
    by rewrite Hkeys.
Qed.

Lemma step_consistent (solver : float -> CANNON.World -> CANNON.World)
    (pw : PhysicsWorld.t) :
  PhysicsWorld.consistent pw -> PhysicsWorld.consistent (PhysicsWorld.step solver pw).
Proof.
  unfold PhysicsWorld.consistent, PhysicsWorld.step. intros Hc.
  destruct (PhysicsWorld.world pw) as [w|] eqn:Hw.
  - destruct (PhysicsWorld.isEnabled pw) eqn:He; simpl.
    + intros _. by eexists.
    + rewrite He. discriminate.
  - rewrite Hw. exact Hc.
Qed.

(** Claim C8 (snapshot completeness).  A tick of the game loop, in a
    world that exists when it is enabled, returns and keeps the registered
    identifiers.  It emits nothing when the registry is empty at broadcast
    time, and otherwise exactly one [gameUpdate], whose participant
    sequence is the public state of every registered participant, as long
    as the registry, and is stamped with the tick's clock reading. *)
Theorem snapshot_completeness
    (worldStep : float -> CANNON.World -> CANNON.World)
    (bodyStep : float -> CANNON.World -> CANNON.Body -> CANNON.Body)
    (now : Z) (gm : GameManager.t) :
  PhysicsWorld.consistent (GameManager.physicsWorld gm) ->
  exists gm',
    GameManager.gameLoop worldStep bodyStep now gm = Some gm'
    /\ map fst (GameManager.players gm') = map fst (GameManager.players gm)
    /\ match GameManager.Map_size (GameManager.players gm') with
       | O => GameManager.io gm' = GameManager.io gm
       | S _ =>
           exists gameState,
             GameManager.io gm'
             = (GameManager.io gm ++ [GameManager.gameUpdate gameState])%list
             /\ GameManager.gs_players gameState
                = map Player.getState
                      (GameManager.Map_values (GameManager.players gm'))
             /\ length (GameManager.gs_players gameState)
                = GameManager.Map_size (GameManager.players gm')
             /\ GameManager.timestamp gameState = now
       end.
Proof.
  intros Hc. unfold GameManager.gameLoop.
  set (stepped := map _ (GameManager.players gm)).
  set (deltaTime := JS.Number_of_Z _ / 1000).
  destruct (updateAllPlayers_total now deltaTime _ stepped
              (step_consistent worldStep _ Hc)) as (m' & -> & Hkeys).
  simpl. eexists. split; [reflexivity|].
  assert (Hst : map fst stepped = map fst (GameManager.players gm)).
  { unfold stepped. rewrite map_map. simpl. done. }
  rewrite Hst in Hkeys. clear Hst.
  unfold GameManager.broadcastGameState, GameManager.Map_size. simpl.
  destruct m' as [|kp m']; simpl.
  - split; [exact Hkeys|done].
  - split; [exact Hkeys|].
    eexists. split; [reflexivity|]. simpl. split; [reflexivity|].
    unfold GameManager.Map_values. rewrite !length_map. done.
Qed.

End Loop.

Section Teardown.

Lemma Map_get_delete {A : Type} (key : string) (m : list (string * A)) :
  GameManager.Map_get key (GameManager.Map_delete key m) = None.
Proof.
  unfold GameManager.Map_get. induction m as [|[k v] m IH]; simpl; [done|].
  destruct (String.eqb k key) eqn:E; simpl; [done|]. by rewrite E.
Qed.

Lemma splice_out_fresh (i : nat) (bs : list nat) :
  NoDup bs -> i ∉ CANNON.splice_out i bs.
Proof.
  induction 1 as [|b bs Hb Hnd IH]; simpl; [apply not_elem_of_nil|].
  destruct (Nat.eqb_spec b i) as [->|Hne]; [done|].
  rewrite not_elem_of_cons. split; [congruence|done].
Qed.

Lemma splice_out_subset (i j : nat) (bs : list nat) :
  j ∈ CANNON.splice_out i bs -> j ∈ bs.
Proof.
  induction bs as [|b bs IH]; simpl; [done|].
  destruct (Nat.eqb b i); rewrite ?elem_of_cons; [auto|].
  intros [->|H]; auto.
Qed.

Lemma splice_out_NoDup (i : nat) (bs : list nat) :
  NoDup bs -> NoDup (CANNON.splice_out i bs).
Proof.
  induction 1 as [|b bs Hb Hnd IH]; simpl; [constructor|].
  destruct (Nat.eqb b i); [done|]. constructor; [|done].
  intros H. by apply Hb, (splice_out_subset i).
Qed.

Lemma removeBody_idempotent (b : CANNON.Body) (w : CANNON.World) :
  NoDup (CANNON.bodies w) ->
  CANNON.removeBody b (CANNON.removeBody b w) = CANNON.removeBody b w.
Proof.
  intros Hnd. destruct (decide (CANNON.id b ∈ CANNON.bodies w)) as [Hin|Hin].
  - assert (Hw : CANNON.removeBody b w
                 = CANNON.set_bodies (CANNON.splice_out (CANNON.id b) (CANNON.bodies w)) w)
      by (unfold CANNON.removeBody; by rewrite bool_decide_eq_true_2).
    rewrite Hw. unfold CANNON.removeBody. simpl.
    rewrite bool_decide_eq_false_2; [done|]. by apply splice_out_fresh.
  - assert (Hw : CANNON.removeBody b w = w)
      by (unfold CANNON.removeBody; by rewrite bool_decide_eq_false_2).
    by rewrite !Hw.
Qed.

Lemma destroy_idempotent (player : Player.t) (pw : PhysicsWorld.t) :
  PhysicsWorld.distinctBodies pw ->
  Player.destroy player (Player.destroy player pw) = Player.destroy player pw.
Proof.
  intros Hd. unfold Player.destroy. destruct (Player.body player) as [b|]; [|done].
  unfold PhysicsWorld.removeBody.
  destruct (PhysicsWorld.world pw) as [w|] eqn:Hw; [|by rewrite Hw].
  destruct (PhysicsWorld.isEnabled pw) eqn:He; [|by rewrite Hw, He].
  simpl. by rewrite removeBody_idempotent by (by apply Hd).
Qed.

Lemma destroy_releases (player : Player.t) (pw : PhysicsWorld.t)
    (b : CANNON.Body) (w' : CANNON.World) :
  PhysicsWorld.distinctBodies pw ->
  Player.body player = Some b ->
  PhysicsWorld.isEnabled pw = true ->
  PhysicsWorld.world (Player.destroy player pw) = Some w' ->
  CANNON.id b ∉ CANNON.bodies w'.
Proof.
  intros Hd Hb He. unfold Player.destroy, PhysicsWorld.removeBody. rewrite Hb.
  destruct (PhysicsWorld.world pw) as [w|] eqn:Hw; [|by rewrite Hw].
  rewrite He. simpl. intros [= <-]. unfold CANNON.removeBody.
  case_bool_decide as Hin; simpl; [|done]. by apply splice_out_fresh, Hd.
Qed.

(** Claim C9 (idempotent teardown).  A second [removePlayer] for the same
    identifier finds no participant and changes nothing: registry, physics
    world and everything else are as the first call left them.  A second
    [destroy] of a participant leaves the physics world as the first one
    left it: the body is out of the solver's registry after the first
    call, and the solver ignores the removal of a body it does not
    hold. *)
Theorem teardown_idempotent (playerId : string) (gm : GameManager.t)
    (player : Player.t) (pw : PhysicsWorld.t) :
  PhysicsWorld.distinctBodies pw ->
  GameManager.removePlayer playerId (GameManager.removePlayer playerId gm)
  = GameManager.removePlayer playerId gm
  /\ GameManager.getPlayer playerId (GameManager.removePlayer playerId gm) = None
  /\ Player.destroy player (Player.destroy player pw) = Player.destroy player pw
  /\ (forall b w',
        Player.body player = Some b ->
        PhysicsWorld.isEnabled pw = true ->
        PhysicsWorld.world (Player.destroy player pw) = Some w' ->
        CANNON.id b ∉ CANNON.bodies w').
Proof.
  intros Hd.
  assert (Hget : GameManager.getPlayer playerId
                   (GameManager.removePlayer playerId gm) = None).
  { unfold GameManager.getPlayer, GameManager.removePlayer.
    destruct (GameManager.Map_get playerId (GameManager.players gm)) eqn:E;
      simpl; [apply Map_get_delete|exact E]. }
  split.
  - unfold GameManager.getPlayer in Hget.
    unfold GameManager.removePlayer at 1. by rewrite Hget.
  - split; [exact Hget|]. split; [by apply destroy_idempotent|].
    intros b w' Hb He Hw. by apply (destroy_releases player pw b w').
Qed.

End Teardown.

(* ===================================================================== *)
(** ** What every state of the server satisfies *)
(* ===================================================================== *)

Section Invariants.

Lemma initialize_consistent (solver : option CANNON.World) (pw : PhysicsWorld.t) :
  PhysicsWorld.consistent (fst (PhysicsWorld.initialize solver pw)).
Proof.
  unfold PhysicsWorld.consistent, PhysicsWorld.initialize.
  destruct solver; simpl; [by eexists|discriminate].
Qed.

Lemma addBody_distinct (b : CANNON.Body) (pw : PhysicsWorld.t) :
  PhysicsWorld.distinctBodies pw ->
  PhysicsWorld.distinctBodies (PhysicsWorld.addBody b pw).
Proof.
  unfold PhysicsWorld.distinctBodies, PhysicsWorld.addBody. intros Hd.
  destruct (PhysicsWorld.world pw) as [w|] eqn:Hw; [|by rewrite Hw].
  destruct (PhysicsWorld.isEnabled pw); [|by rewrite Hw].
  simpl. intros w' [= <-]. unfold CANNON.addBody.
  case_bool_decide as Hin; simpl; [by apply Hd|].
  apply NoDup_app. split; [by apply Hd|]. split; [|apply NoDup_singleton].
  intros i Hi ->%list_elem_of_singleton. done.
Qed.

Lemma removeBody_distinct (b : CANNON.Body) (pw : PhysicsWorld.t) :
  PhysicsWorld.distinctBodies pw ->
  PhysicsWorld.distinctBodies (PhysicsWorld.removeBody b pw).
Proof.
  unfold PhysicsWorld.distinctBodies, PhysicsWorld.removeBody. intros Hd.
  destruct (PhysicsWorld.world pw) as [w|] eqn:Hw; [|by rewrite Hw].
  destruct (PhysicsWorld.isEnabled pw); [|by rewrite Hw].
  simpl. intros w' [= <-]. unfold CANNON.removeBody.
  case_bool_decide as Hin; simpl; [|by apply Hd].
  by apply splice_out_NoDup, Hd.
Qed.

Lemma enabledWorld_consistent : PhysicsWorld.consistent Scenario.enabledWorld.
Proof. intros _. by eexists. Qed.

Lemma enabledWorld_distinct : PhysicsWorld.distinctBodies Scenario.enabledWorld.
Proof. intros w [= <-]. simpl. by apply (bool_decide_unpack _). Qed.

End Invariants.

Section Reachable.

Lemma addBody_consistent (b : CANNON.Body) (pw : PhysicsWorld.t) :
  PhysicsWorld.consistent pw -> PhysicsWorld.consistent (PhysicsWorld.addBody b pw).
Proof.
  unfold PhysicsWorld.consistent, PhysicsWorld.addBody. intros Hc.
  destruct (PhysicsWorld.world pw) as [w|] eqn:Hw; [|by rewrite Hw].
  destruct (PhysicsWorld.isEnabled pw) eqn:He; simpl; [by eexists|].
  rewrite He. discriminate.
Qed.

Lemma removeBody_consistent (b : CANNON.Body) (pw : PhysicsWorld.t) :
  PhysicsWorld.consistent pw -> PhysicsWorld.consistent (PhysicsWorld.removeBody b pw).
Proof.
  unfold PhysicsWorld.consistent, PhysicsWorld.removeBody. intros Hc.
  destruct (PhysicsWorld.world pw) as [w|] eqn:Hw; [|by rewrite Hw].
  destruct (PhysicsWorld.isEnabled pw) eqn:He; simpl; [by eexists|].
  rewrite He. discriminate.
Qed.

Lemma step_distinct (solver : float -> CANNON.World -> CANNON.World)
    (pw : PhysicsWorld.t) :
  (forall dt w, CANNON.bodies (solver dt w) = CANNON.bodies w) ->
  PhysicsWorld.distinctBodies pw ->
  PhysicsWorld.distinctBodies (PhysicsWorld.step solver pw).
Proof.
  unfold PhysicsWorld.distinctBodies, PhysicsWorld.step. intros Hs Hd.
  destruct (PhysicsWorld.world pw) as [w|] eqn:Hw; [|by rewrite Hw].
  destruct (PhysicsWorld.isEnabled pw); [|by rewrite Hw].
  simpl. intros w' [= <-]. rewrite Hs. by apply Hd.
Qed.

Lemma gameLoop_physicsWorld
    (worldStep : float -> CANNON.World -> CANNON.World)
    (bodyStep : float -> CANNON.World -> CANNON.Body -> CANNON.Body)
    (now : Z) (gm gm' : GameManager.t) :
  GameManager.gameLoop worldStep bodyStep now gm = Some gm' ->
  GameManager.physicsWorld gm'
  = PhysicsWorld.step worldStep (GameManager.physicsWorld gm).
Proof.
  unfold GameManager.gameLoop.
  destruct (GameManager.updateAllPlayers _ _ _ _) as [players'|]; [|done].
  simpl. intros [= <-]. unfold GameManager.broadcastGameState. simpl.
  by destruct (0 <? GameManager.Map_size players')%nat.
Qed.

(** X18.  Every state of the running server has a solver world whenever
    physics is enabled, and no body registered twice. *)
Lemma reachable_invariant (s : Server.t) :
  Server.reachable s ->
  PhysicsWorld.consistent (GameManager.physicsWorld (Server.gameManager s))
  /\ PhysicsWorld.distinctBodies (GameManager.physicsWorld (Server.gameManager s)).
Proof.
  induction 1 as [solver now Hnd
                 |r1 r2 colour now bodyId socketId s _ [Hc Hd]
                 |now socketId inputData s _ [Hc Hd]
                 |socketId s _ [Hc Hd]
                 |worldStep bodyStep now s gm' _ [Hc Hd] Hkeep Hloop].
  - simpl. split; [apply initialize_consistent|].
    destruct solver as [w|]; simpl; intros w' [= <-]. by apply Hnd.
  - simpl. unfold GameManager.addPlayer, Player.new.
    destruct (negb (PhysicsWorld.isPhysicsEnabled _)); simpl; [done|].
    split; [by apply addBody_consistent|by apply addBody_distinct].
  - unfold Server.onPlayerInput.
    destruct (GameManager.getPlayer socketId (Server.gameManager s)); [|done].
    destruct (InputHandler.processInput _ _ _ _ _) as [[ok h] player']. done.
  - simpl. unfold GameManager.removePlayer.
    destruct (GameManager.Map_get socketId _) as [player|]; [|done]. simpl.
    unfold Player.destroy. destruct (Player.body player); [|done].
    split; [by apply removeBody_consistent|by apply removeBody_distinct].
  - simpl. rewrite (gameLoop_physicsWorld _ _ _ _ _ Hloop).
    split; [by apply step_consistent|by apply step_distinct].
Qed.

End Reachable.

Section Witnesses.
Local Open Scope float_scope.

(** A tick of the game with two participants emits one snapshot of
    length 2. *)
Lemma snapshot_completeness_witness :
  exists gm' gameState,
    GameManager.gameLoop (fun _ w => w) (fun _ _ b => b) 1016 Scenario.game = Some gm'
    /\ GameManager.io gm' = [GameManager.gameUpdate gameState]
    /\ length (GameManager.gs_players gameState) = 2%nat
    /\ GameManager.Map_size (GameManager.players gm') = 2%nat.
Proof.
  destruct (snapshot_completeness (fun _ w => w) (fun _ _ b => b) 1016 Scenario.game
              enabledWorld_consistent) as (gm' & Hloop & Hkeys & Hio).
  assert (Hsize : GameManager.Map_size (GameManager.players gm') = 2%nat).
  { unfold GameManager.Map_size.
    rewrite <- (length_map fst (GameManager.players gm')). by rewrite Hkeys. }
  rewrite Hsize in Hio. destruct Hio as (gameState & Hio & _ & Hlen & _).
  exists gm', gameState. split; [exact Hloop|]. split; [exact Hio|].
  split; [exact Hlen|exact Hsize].
Defined.

(** Removing "p1" twice, and destroying its participant twice. *)
Lemma teardown_idempotent_witness :
  GameManager.removePlayer "p1" (GameManager.removePlayer "p1" Scenario.game)
  = GameManager.removePlayer "p1" Scenario.game
  /\ GameManager.getPlayer "p1" (GameManager.removePlayer "p1" Scenario.game) = None
  /\ Player.destroy Scenario.jumper (Player.destroy Scenario.jumper Scenario.enabledWorld)
     = Player.destroy Scenario.jumper Scenario.enabledWorld
  /\ (1%nat ∉ [0%nat; 2%nat]).
Proof.
  destruct (teardown_idempotent "p1" Scenario.game Scenario.jumper Scenario.enabledWorld
              enabledWorld_distinct) as (H1 & H2 & H3 & H4).
  split; [exact H1|]. split; [exact H2|]. split; [exact H3|].
  exact (H4 (Scenario.bodyAt 1 0 0.4 0) _ eq_refl eq_refl eq_refl).
Defined.

End Witnesses.


(* ===================================================================== *)
(** ** Further properties: input records and the rate limiter *)
(* ===================================================================== *)

Section InputRecord.



Lemma assoc_tabulate {A : Type} (g : string -> A) (key : string) (ks : list string) :
  JS.assoc key (map (fun k => (k, g k)) ks)
  = if bool_decide (key ∈ ks) then Some (g key) else None.
Proof.
  induction ks as [|k ks IH]; simpl; [done|].
  destruct (String.eqb_spec k key) as [->|Hne].
  - by rewrite bool_decide_eq_true_2 by apply list_elem_of_here.
  - rewrite IH. destruct (decide (key ∈ ks)) as [Hin|Hin].
    + rewrite !bool_decide_eq_true_2; [done|by apply list_elem_of_further|done].
    + rewrite !bool_decide_eq_false_2; [done| |done].
      rewrite elem_of_cons. intros [->|?]; done.
Qed.

(** X2.  Validation is idempotent over the wire: a record that
    [validateInput] has produced, sent again as an object, is accepted and
    comes out unchanged. *)
Theorem validateInput_idempotent (inputData : JS.value)
    (validInput : list (string * bool)) :
  InputHandler.validateInput inputData = Some validInput ->
  InputHandler.validateInput (Arrivals.toObject validInput) = Some validInput.
Proof.
  intros Hv.
  assert (Hn : validInput = InputHandler.normalized inputData).
  { unfold InputHandler.validateInput in Hv. rewrite validate_loop in Hv.
    destruct (negb _ || negb _); [done|]. by injection Hv as <-. }
  unfold InputHandler.validateInput. rewrite validate_loop.
  change (negb (JS.ToBoolean (Arrivals.toObject validInput))
          || negb (JS.typeof_object (Arrivals.toObject validInput))) with false.
  cbv iota. rewrite app_nil_l.
  f_equal. rewrite Hn. unfold InputHandler.normalized.
  set (ks := List.filter _ InputHandler.validInputs).
  assert (Hprops : forall key,
             JS.assoc key
               (map (fun kv : string * bool => (fst kv, JS.boolean (snd kv)))
                    (map (fun key => (key, JS.ToBoolean (JS.get inputData key))) ks))
             = if bool_decide (key ∈ ks) then Some (JS.boolean (JS.ToBoolean (JS.get inputData key))) else None).
  { intros key. rewrite map_map. simpl.
    apply (assoc_tabulate (fun k => JS.boolean (JS.ToBoolean (JS.get inputData k)))). }
  assert (Hhas : forall k, In k InputHandler.validInputs ->
             JS.has_key k (Arrivals.toObject (map (fun key => (key, JS.ToBoolean (JS.get inputData key))) ks))
             = JS.has_key k inputData).
  { intros k Hk. unfold JS.has_key at 1. unfold Arrivals.toObject.
    rewrite Hprops. destruct (decide (k ∈ ks)) as [Hin|Hin].
    - rewrite (bool_decide_eq_true_2 (k ∈ ks)) by done.
      rewrite bool_decide_eq_true_2 by (by eexists).
      apply list_elem_of_In, filter_In in Hin. by destruct Hin as [_ ->].
    - rewrite (bool_decide_eq_false_2 (k ∈ ks)) by done.
      rewrite bool_decide_eq_false_2 by (by intros [? ?]).
      destruct (JS.has_key k inputData) eqn:E; [|done].
      exfalso. apply Hin, list_elem_of_In, filter_In. done. }
  rewrite (filter_ext_in _ _ _ Hhas). fold ks.
  apply map_ext_in. intros k Hk. f_equal.
  unfold JS.get, Arrivals.toObject. rewrite Hprops.
  by rewrite bool_decide_eq_true_2 by (by apply list_elem_of_In).
Qed.

End InputRecord.

Section Limiter.

(** X3.  Whatever the arrivals (any connections, any clock readings, in
    any order), the inputs of one connection that [shouldProcessInput]
    accepts are at least [INPUT_RATE_LIMIT] apart, each later than the one
    before, starting from the connection's recorded time. *)
Theorem accepted_inputs_spaced (playerId : string) (arrivals : list (Z * string))
    (h : InputHandler.t) :
  Arrivals.spaced (default 0%Z (InputHandler.lastInputTime h !! playerId))
    (Arrivals.accepted playerId arrivals h).
Proof.
  revert h. induction arrivals as [|[now k] arrivals IH]; intros h; simpl; [done|].
  destruct (Z_lt_le_dec (now - default 0 (InputHandler.lastInputTime h !! k))
              InputHandler.INPUT_RATE_LIMIT) as [Hlt|Hle].
  - rewrite (shouldProcessInput_reject _ _ _ Hlt). simpl. apply IH.
  - rewrite (shouldProcessInput_accept _ _ _ Hle). simpl.
    set (h' := {| InputHandler.lastInputTime := _ |}).
    destruct (String.eqb_spec k playerId) as [->|Hne].
    + simpl. split; [exact Hle|].
      replace now with (default 0%Z (InputHandler.lastInputTime h' !! playerId)) at 1
        by (unfold h'; simpl; by rewrite lookup_insert_eq).
      apply IH.
    + replace (InputHandler.lastInputTime h !! playerId)
        with (InputHandler.lastInputTime h' !! playerId)
        by (unfold h'; simpl; by rewrite lookup_insert_ne).
      apply IH.
Qed.

(** X4.  Rate limiting is per connection: a call for another connection
    leaves this connection's recorded time and the decision on its next
    input as they were. *)
Theorem shouldProcessInput_other_connection (now t : Z) (playerId other : string)
    (h : InputHandler.t) :
  other <> playerId ->
  InputHandler.lastInputTime (snd (InputHandler.shouldProcessInput t other h)) !! playerId
  = InputHandler.lastInputTime h !! playerId
  /\ fst (InputHandler.shouldProcessInput now playerId
            (snd (InputHandler.shouldProcessInput t other h)))
     = fst (InputHandler.shouldProcessInput now playerId h).
Proof.
  intros Hne.
  assert (Hl : InputHandler.lastInputTime
                 (snd (InputHandler.shouldProcessInput t other h)) !! playerId
               = InputHandler.lastInputTime h !! playerId).
  { unfold InputHandler.shouldProcessInput.
    destruct (_ >=? _)%Z; simpl; [by rewrite lookup_insert_ne|done]. }
  split; [exact Hl|].
  unfold InputHandler.shouldProcessInput at 1 3. rewrite Hl.
  by destruct (_ >=? _)%Z.
Qed.

(** X5.  [cleanupPlayer] forgets the connection: its entry is gone, its
    next input is judged as a first one (accepted from clock reading 16
    on, however recent the last accepted input was), the other entries
    are untouched, a second cleanup changes nothing, and the number of
    entries [getStats] reports does not grow. *)
Theorem cleanupPlayer_forgets (now : Z) (playerId : string) (h : InputHandler.t) :
  InputHandler.lastInputTime (InputHandler.cleanupPlayer playerId h) !! playerId = None
  /\ fst (InputHandler.shouldProcessInput now playerId
            (InputHandler.cleanupPlayer playerId h))
     = (InputHandler.INPUT_RATE_LIMIT <=? now)%Z
  /\ delete playerId
       (InputHandler.lastInputTime (InputHandler.cleanupPlayer playerId h))
     = delete playerId (InputHandler.lastInputTime h)
  /\ InputHandler.cleanupPlayer playerId (InputHandler.cleanupPlayer playerId h)
     = InputHandler.cleanupPlayer playerId h
  /\ (fst (InputHandler.getStats (InputHandler.cleanupPlayer playerId h))
      <= fst (InputHandler.getStats h))%nat.
Proof.
  unfold InputHandler.cleanupPlayer, InputHandler.getStats. simpl.
  split; [apply lookup_delete_eq|]. split.
  { unfold InputHandler.shouldProcessInput. simpl. rewrite lookup_delete_eq. simpl.
    rewrite Z.sub_0_r, Z.geb_leb. by destruct (_ <=? _)%Z. }
  split; [by rewrite delete_delete_eq|]. split; [by rewrite delete_delete_eq|].
  rewrite map_size_delete. destruct (_ !! _); simpl; lia.
Qed.

End Limiter.

(* ===================================================================== *)
(** ** Further properties: movement *)
(* ===================================================================== *)

Section Kinematics.
Local Open Scope float_scope.

(** X6.  Whatever the message, [processInput] leaves the participant's
    identity, colour, timestamps, grounded flag, position, velocity and
    body alone, and changes no bookkeeping but that of its own
    connection. *)
Theorem processInput_only_input (now : Z) (playerId : string)
    (inputData : JS.value) (player : Player.t) (h : InputHandler.t) :
  let player' := snd (InputHandler.processInput now playerId inputData player h) in
  let h' := snd (fst (InputHandler.processInput now playerId inputData player h)) in
  Player.id player' = Player.id player
  /\ Player.color player' = Player.color player
  /\ Player.lastUpdate player' = Player.lastUpdate player
  /\ Player.onGround player' = Player.onGround player
  /\ Player.position player' = Player.position player
  /\ Player.velocity player' = Player.velocity player
  /\ Player.body player' = Player.body player
  /\ delete playerId (InputHandler.lastInputTime h')
     = delete playerId (InputHandler.lastInputTime h).
Proof.
  unfold InputHandler.processInput.
  destruct (InputHandler.validateInput inputData) as [validInput|]; [|done].
  unfold InputHandler.shouldProcessInput.
  destruct (_ >=? _)%Z; simpl; [|done].
  repeat (split; [done|]). by rewrite delete_insert_eq.
Qed.

(** X7.  The directions of the target velocity: [left] is negative x,
    [right] positive x, [forward] negative z, [backward] positive z;
    opposite intents cancel; with one axis active the target is [SPEED]
    on that axis, with both axes active the two components have the same
    magnitude; [jump] plays no part. *)
Theorem targetVelocity_directions (i : Player.Input) :
  let '(targetX, targetZ) := Player.targetVelocity i in
  (targetX <? 0) = Player.left i && negb (Player.right i)
  /\ (0 <? targetX) = Player.right i && negb (Player.left i)
  /\ (targetZ <? 0) = Player.forward i && negb (Player.backward i)
  /\ (0 <? targetZ) = Player.backward i && negb (Player.forward i)
  /\ (JS.Math_abs targetX =? Player.SPEED)
     = xorb (Player.left i) (Player.right i)
       && negb (xorb (Player.forward i) (Player.backward i))
  /\ (JS.Math_abs targetZ =? Player.SPEED)
     = xorb (Player.forward i) (Player.backward i)
       && negb (xorb (Player.left i) (Player.right i))
  /\ (JS.Math_abs targetX =? JS.Math_abs targetZ)
     = eqb (xorb (Player.left i) (Player.right i))
           (xorb (Player.forward i) (Player.backward i)).
Proof.
  destruct i as [[] [] [] [] j]; repeat split; reflexivity.
Qed.

(** X8.  What a physics tick leaves behind.  The participant's own
    position and velocity are those of the body as the tick found it, also
    when the body is then moved to the respawn point.  The body keeps its
    identity and mass, is moved only by the out-of-bounds reset, and ends
    with angular velocity 0 about the x and z axes; about the y axis the
    angular velocity is kept, except by the reset. *)
Theorem physics_tick_public_state (now : Z) (dt : float) (pw : PhysicsWorld.t)
    (w : CANNON.World) (p : Player.t) (b : CANNON.Body) :
  Player.body p = Some b ->
  PhysicsWorld.isEnabled pw = true ->
  PhysicsWorld.world pw = Some w ->
  exists p' b',
    Player.update now (Some dt) pw p = Some p'
    /\ Player.body p' = Some b'
    /\ Player.position p' = CANNON.position b
    /\ Player.velocity p' = CANNON.velocity b
    /\ Player.lastUpdate p' = now
    /\ CANNON.id b' = CANNON.id b
    /\ CANNON.mass b' = CANNON.mass b
    /\ CANNON.position b'
       = (if Player.outOfBounds (CANNON.position b) then Vec3.mk 0 5 0
          else CANNON.position b)
    /\ Vec3.x (CANNON.angularVelocity b') = 0
    /\ Vec3.z (CANNON.angularVelocity b') = 0
    /\ Vec3.y (CANNON.angularVelocity b')
       = (if Player.outOfBounds (CANNON.position b) then 0
          else Vec3.y (CANNON.angularVelocity b)).
Proof.
  intros Hb He Hw. rewrite (update_physics now dt pw w p b Hb He Hw).
  set (q := Player.set_onGround _ _).
  assert (Hq : Player.body q = Some b)
    by (unfold q, Player.syncFromBody; rewrite Hb; done).
  assert (Hqp : Player.position q = CANNON.position b
                /\ Player.velocity q = CANNON.velocity b).
  { unfold q, Player.syncFromBody. rewrite Hb. simpl.
    by destruct (CANNON.position b), (CANNON.velocity b). }
  destruct Hqp as [Hqpos Hqvel].
  set (q1 := Player.applyMovementForces (Player.normalizeDeltaTime dt) q).
  assert (H1 : exists b1, Player.body q1 = Some b1
                 /\ CANNON.id b1 = CANNON.id b /\ CANNON.mass b1 = CANNON.mass b
                 /\ CANNON.position b1 = CANNON.position b
                 /\ CANNON.angularVelocity b1 = CANNON.angularVelocity b
                 /\ Player.position q1 = Player.position q
                 /\ Player.velocity q1 = Player.velocity q).
  { unfold q1, Player.applyMovementForces. rewrite Hq.
    destruct (Player.targetVelocity (Player.input q)).
    destruct (Player.onGround q); [destruct (Player.jump (Player.input q))|];
      simpl; eexists; repeat split. }
  destruct H1 as (b1 & Hb1 & Hid1 & Hm1 & Hp1 & Ha1 & Hqp1 & Hqv1).
  set (q2 := Player.applyFloatiness pw q1).
  assert (H2 : exists b2, Player.body q2 = Some b2
                 /\ CANNON.id b2 = CANNON.id b1 /\ CANNON.mass b2 = CANNON.mass b1
                 /\ CANNON.position b2 = CANNON.position b1
                 /\ CANNON.angularVelocity b2 = CANNON.angularVelocity b1
                 /\ Player.position q2 = Player.position q1
                 /\ Player.velocity q2 = Player.velocity q1).
  { unfold q2, Player.applyFloatiness.
    destruct (negb _ && _); [destruct (PhysicsWorld.getWorld pw)|];
      unfold Player.on_body; simpl; rewrite ?Hb1; simpl; eexists; repeat split. }
  destruct H2 as (b2 & Hb2 & Hid2 & Hm2 & Hp2 & Ha2 & Hqp2 & Hqv2).
  eexists. eexists. split; [reflexivity|].
  unfold Player.applyBoundaryConstraints, Player.stopRotation, Player.on_body.
  simpl. rewrite Hb2. simpl. split; [reflexivity|].
  rewrite Hqp2, Hqp1, Hqpos, Hqv2, Hqv1, Hqvel, Hp2, Hp1.
  do 3 (split; [reflexivity|]).
  destruct (Player.outOfBounds (CANNON.position b)); simpl;
    rewrite ?Hid2, ?Hid1, ?Hm2, ?Hm1, ?Hp2, ?Hp1, ?Ha2, ?Ha1; repeat split.
Qed.

End Kinematics.

Section LateTick.
Local Open Scope float_scope.



End LateTick.

(* ===================================================================== *)
(** ** Further properties: registry, bodies and teardown *)
(* ===================================================================== *)

Section Registry.
Local Open Scope float_scope.

Lemma Map_get_set_eq {A : Type} (key : string) (v : A) (m : list (string * A)) :
  GameManager.Map_get key (GameManager.Map_set key v m) = Some v.
Proof.
  unfold GameManager.Map_get. induction m as [|[k w] m IH]; simpl.
  - by rewrite String.eqb_refl.
  - destruct (String.eqb k key) eqn:E; simpl; by rewrite E.
Qed.

Lemma Map_get_set_ne {A : Type} (key other : string) (v : A) (m : list (string * A)) :
  other <> key ->
  GameManager.Map_get other (GameManager.Map_set key v m) = GameManager.Map_get other m.
Proof.
  intros Hne. unfold GameManager.Map_get. induction m as [|[k w] m IH]; simpl.
  - destruct (String.eqb_spec key other); [congruence|done].
  - destruct (String.eqb_spec k key) as [->|Hk]; simpl.
    + destruct (String.eqb_spec key other); [congruence|done].
    + by rewrite IH.
Qed.

Lemma Map_get_delete_ne {A : Type} (key other : string) (m : list (string * A)) :
  other <> key ->
  GameManager.Map_get other (GameManager.Map_delete key m) = GameManager.Map_get other m.
Proof.
  intros Hne. unfold GameManager.Map_get. induction m as [|[k w] m IH]; simpl; [done|].
  destruct (String.eqb_spec k key) as [->|Hk]; simpl.
  - rewrite IH. destruct (String.eqb_spec key other); [congruence|done].
  - by rewrite IH.
Qed.

Lemma Map_delete_absent {A : Type} (key : string) (m : list (string * A)) :
  GameManager.Map_get key m = None -> GameManager.Map_delete key m = m.
Proof.
  unfold GameManager.Map_get. induction m as [|[k w] m IH]; simpl; [done|].
  destruct (String.eqb k key); [done|]. intros H. by rewrite IH.
Qed.

Lemma Map_delete_set_fresh {A : Type} (key : string) (v : A) (m : list (string * A)) :
  GameManager.Map_get key m = None ->
  GameManager.Map_delete key (GameManager.Map_set key v m) = m.
Proof.
  unfold GameManager.Map_get. induction m as [|[k w] m IH]; simpl.
  - by rewrite String.eqb_refl.
  - destruct (String.eqb k key) eqn:E; [done|]. intros H. simpl.
    by rewrite E, IH.
Qed.

Lemma Map_size_set {A : Type} (key : string) (v : A) (m : list (string * A)) :
  GameManager.Map_size (GameManager.Map_set key v m)
  = match GameManager.Map_get key m with
    | Some _ => GameManager.Map_size m
    | None => S (GameManager.Map_size m)
    end.
Proof.
  unfold GameManager.Map_get, GameManager.Map_size.
  induction m as [|[k w] m IH]; simpl; [done|].
  destruct (String.eqb k key); simpl; [done|]. rewrite IH.
  by destruct (JS.assoc key m).
Qed.

(** X13.  The registry: [getPlayer] finds the participant [addPlayer]
    has just returned, under the identifier given; adding or removing one
    identifier does not change what is found under another; the player
    count grows by one for a new identifier and not at all for a known
    one. *)
Theorem registry_lookup (r1 r2 : float) (colour : string) (now : Z) (bodyId : nat)
    (playerId other : string) (px py pz : float) (gm : GameManager.t) :
  other <> playerId ->
  let added := GameManager.addPlayer r1 r2 colour now bodyId playerId px py pz gm in
  GameManager.getPlayer playerId (snd added) = Some (fst added)
  /\ Player.id (fst added) = playerId
  /\ GameManager.getPlayer other (snd added) = GameManager.getPlayer other gm
  /\ GameManager.getPlayer other (GameManager.removePlayer playerId gm)
     = GameManager.getPlayer other gm
  /\ fst (fst (GameManager.getGameStats (snd added)))
     = match GameManager.getPlayer playerId gm with
       | Some _ => fst (fst (GameManager.getGameStats gm))
       | None => S (fst (fst (GameManager.getGameStats gm)))
       end.
Proof.
  intros Hne added. unfold added, GameManager.addPlayer, GameManager.getPlayer,
    GameManager.getGameStats, Player.new.
  destruct (negb (PhysicsWorld.isPhysicsEnabled (GameManager.physicsWorld gm)));
    simpl; (split; [apply Map_get_set_eq|]); (split; [done|]);
    (split; [by apply Map_get_set_ne|]);
    (split; [|apply Map_size_set]);
    unfold GameManager.removePlayer;
    (destruct (GameManager.Map_get playerId (GameManager.players gm)); simpl;
     [by apply Map_get_delete_ne|done]).
Qed.

End Registry.

Section Bodies.
Local Open Scope float_scope.

Lemma splice_out_absent (i : nat) (bs : list nat) :
  i ∉ bs -> CANNON.splice_out i bs = bs.
Proof.
  induction bs as [|b bs IH]; simpl; [done|].
  rewrite not_elem_of_cons. intros [Hne Hin].
  destruct (Nat.eqb_spec b i); [congruence|]. by rewrite IH.
Qed.

Lemma splice_out_snoc (i : nat) (bs : list nat) :
  i ∉ bs -> CANNON.splice_out i (bs ++ [i])%list = bs.
Proof.
  induction bs as [|b bs IH]; simpl.
  - by rewrite Nat.eqb_refl.
  - rewrite not_elem_of_cons. intros [Hne Hin].
    destruct (Nat.eqb_spec b i); [congruence|]. by rewrite IH.
Qed.

Lemma elem_of_splice_out (i j : nat) (bs : list nat) :
  NoDup bs -> j ∈ CANNON.splice_out i bs <-> j ∈ bs /\ j <> i.
Proof.
  induction 1 as [|b bs Hb Hnd IH]; simpl.
  - split; [by intros ?%elem_of_nil|by intros [?%elem_of_nil _]].
  - destruct (Nat.eqb_spec b i) as [->|Hne].
    + rewrite elem_of_cons. split.
      * intros Hj. split; [by right|]. by intros ->.
      * intros [[->|Hj] Hji]; done.
    + rewrite !elem_of_cons, IH. split.
      * intros [->|[Hj Hji]]; split; auto.
      * intros [[->|Hj] Hji]; auto.
Qed.

Lemma removeBody_addBody (b : CANNON.Body) (pw : PhysicsWorld.t) :
  (forall w, PhysicsWorld.world pw = Some w -> CANNON.id b ∉ CANNON.bodies w) ->
  PhysicsWorld.removeBody b (PhysicsWorld.addBody b pw) = pw.
Proof.
  intros Hfresh. destruct pw as [[w|] en]; [|done].
  specialize (Hfresh w eq_refl). simpl in Hfresh.
  destruct en; [|done].
  unfold PhysicsWorld.removeBody, PhysicsWorld.addBody. simpl.
  f_equal. f_equal. unfold CANNON.addBody.
  rewrite bool_decide_eq_false_2 by done. unfold CANNON.removeBody. simpl.
  rewrite bool_decide_eq_true_2 by (apply elem_of_app; right; apply list_elem_of_here).
  simpl. rewrite splice_out_snoc by done. by destruct w.
Qed.

(** X11.  Registering a body that the solver does not hold and removing
    it again restores the physics world; registering it twice is
    registering it once; in an enabled world the debug data lists it
    last. *)
Theorem world_add_remove (b : CANNON.Body) (pw : PhysicsWorld.t) :
  (forall w, PhysicsWorld.world pw = Some w -> CANNON.id b ∉ CANNON.bodies w) ->
  PhysicsWorld.removeBody b (PhysicsWorld.addBody b pw) = pw
  /\ PhysicsWorld.addBody b (PhysicsWorld.addBody b pw) = PhysicsWorld.addBody b pw
  /\ (PhysicsWorld.isPhysicsEnabled pw = true ->
      is_Some (PhysicsWorld.world pw) ->
      PhysicsWorld.getDebugData (PhysicsWorld.addBody b pw)
      = (PhysicsWorld.getDebugData pw ++ [CANNON.id b])%list).
Proof.
  intros Hfresh. split; [by apply removeBody_addBody|].
  destruct pw as [[w|] en].
  2:{ split; [done|]. by intros _ [? ?]. }
  specialize (Hfresh w eq_refl). simpl in Hfresh.
  destruct en; [|done].
  unfold PhysicsWorld.addBody, PhysicsWorld.getDebugData,
    PhysicsWorld.isPhysicsEnabled. simpl.
  assert (Ha : CANNON.addBody b w
               = CANNON.set_bodies (CANNON.bodies w ++ [CANNON.id b])%list w)
    by (unfold CANNON.addBody; by rewrite bool_decide_eq_false_2).
  rewrite Ha. split; [|done].
  f_equal. f_equal. unfold CANNON.addBody at 1. simpl.
  by rewrite bool_decide_eq_true_2
    by (apply elem_of_app; right; apply list_elem_of_here).
Qed.

(** X12.  Adding a participant under an unused identifier, with a body
    the solver does not hold yet, and removing it again restores the game
    manager: registry, physics world and all. *)
Theorem add_then_remove_player (r1 r2 : float) (colour : string) (now : Z)
    (bodyId : nat) (playerId : string) (px py pz : float) (gm : GameManager.t) :
  GameManager.getPlayer playerId gm = None ->
  (forall w, PhysicsWorld.world (GameManager.physicsWorld gm) = Some w ->
             bodyId ∉ CANNON.bodies w) ->
  GameManager.removePlayer playerId
    (snd (GameManager.addPlayer r1 r2 colour now bodyId playerId px py pz gm))
  = gm.
Proof.
  intros Hnone Hfresh. unfold GameManager.addPlayer, Player.new.
  destruct gm as [pw io players lastTick timer]. simpl in *.
  unfold GameManager.getPlayer in Hnone. simpl in Hnone.
  destruct (negb (PhysicsWorld.isPhysicsEnabled pw)) eqn:Hen; simpl;
    unfold GameManager.removePlayer; simpl; rewrite Map_get_set_eq; simpl;
    rewrite Map_delete_set_fresh by done; [done|].
  unfold Player.destroy. simpl.
  set (b := {| CANNON.id := bodyId |}).
  by rewrite (removeBody_addBody b pw Hfresh).
Qed.

End Bodies.

Section Shutdown.
Local Open Scope float_scope.

Lemma getDebugData_destroy (player : Player.t) (pw : PhysicsWorld.t) :
  PhysicsWorld.getDebugData (Player.destroy player pw)
  = match Player.body player with
    | Some b => CANNON.splice_out (CANNON.id b) (PhysicsWorld.getDebugData pw)
    | None => PhysicsWorld.getDebugData pw
    end.
Proof.
  unfold Player.destroy. destruct (Player.body player) as [b|]; [|done].
  unfold PhysicsWorld.removeBody, PhysicsWorld.getDebugData.
  destruct (PhysicsWorld.world pw) as [w|] eqn:Hw; [|by rewrite Hw].
  destruct (PhysicsWorld.isEnabled pw) eqn:He; simpl; [|by rewrite Hw, He].
  unfold CANNON.removeBody. case_bool_decide as Hin; simpl; [done|].
  by rewrite splice_out_absent.
Qed.

Lemma getDebugData_NoDup (pw : PhysicsWorld.t) :
  PhysicsWorld.distinctBodies pw -> NoDup (PhysicsWorld.getDebugData pw).
Proof.
  intros Hd. unfold PhysicsWorld.getDebugData.
  destruct (PhysicsWorld.world pw) as [w|] eqn:Hw; [|constructor].
  destruct (PhysicsWorld.isEnabled pw); [by apply Hd|constructor].
Qed.

Lemma destroy_distinct (player : Player.t) (pw : PhysicsWorld.t) :
  PhysicsWorld.distinctBodies pw ->
  PhysicsWorld.distinctBodies (Player.destroy player pw).
Proof.
  intros Hd. unfold Player.destroy.
  destruct (Player.body player); [by apply removeBody_distinct|done].
Qed.

Lemma destroy_all (ps : list Player.t) :
  forall pw : PhysicsWorld.t,
    PhysicsWorld.distinctBodies pw ->
    forall j : nat,
      j ∈ PhysicsWorld.getDebugData
            (foldl (fun pw player => Player.destroy player pw) pw ps)
      <-> j ∈ PhysicsWorld.getDebugData pw
          /\ forall player b, player ∈ ps -> Player.body player = Some b ->
                              CANNON.id b <> j.
Proof.
  induction ps as [|p ps IH]; intros pw Hd j; simpl.
  - split; [|tauto]. intros Hj. split; [done|]. by intros ? ? ?%elem_of_nil.
  - rewrite (IH _ (destroy_distinct p pw Hd)). rewrite getDebugData_destroy.
    pose proof (getDebugData_NoDup pw Hd) as Hnd.
    destruct (Player.body p) as [bp|] eqn:Hbp.
    + rewrite (elem_of_splice_out _ _ _ Hnd). split.
      * intros [[Hj Hne] Hrest]. split; [done|].
        intros player b [->|Hin]%elem_of_cons Hb; [|by eapply Hrest].
        rewrite Hbp in Hb. injection Hb as <-. congruence.
      * intros [Hj Hall]. split.
        -- split; [done|]. intros Heq. by apply (Hall p bp); [left| |].
        -- intros player b Hin. apply Hall. by right.
    + split.
      * intros [Hj Hrest]. split; [done|].
        intros player b [->|Hin]%elem_of_cons Hb; [congruence|by eapply Hrest].
      * intros [Hj Hall]. split; [done|].
        intros player b Hin. apply Hall. by right.
Qed.

(** X14.  [shutdown] empties the registry, stops the timer, emits
    nothing, and releases exactly the participants' bodies: a body is
    listed afterwards if and only if it was listed before and belongs to
    no participant.  A second [shutdown] changes nothing. *)
Theorem shutdown_releases (gm : GameManager.t) :
  PhysicsWorld.distinctBodies (GameManager.physicsWorld gm) ->
  GameManager.players (GameManager.shutdown gm) = []
  /\ GameManager.gameLoopInterval (GameManager.shutdown gm) = false
  /\ GameManager.io (GameManager.shutdown gm) = GameManager.io gm
  /\ (forall j : nat,
        j ∈ PhysicsWorld.getDebugData (GameManager.physicsWorld (GameManager.shutdown gm))
        <-> j ∈ PhysicsWorld.getDebugData (GameManager.physicsWorld gm)
            /\ forall player b,
                 player ∈ GameManager.Map_values (GameManager.players gm) ->
                 Player.body player = Some b -> CANNON.id b <> j)
  /\ GameManager.shutdown (GameManager.shutdown gm) = GameManager.shutdown gm.
Proof.
  intros Hd. unfold GameManager.shutdown, GameManager.stopGameLoop.
  destruct (GameManager.gameLoopInterval gm) eqn:Ht; simpl;
    rewrite ?Ht; (split; [done|]); (split; [done|]); (split; [done|]);
    (split; [by apply destroy_all|done]).
Qed.

End Shutdown.

Section Ticks.
Local Open Scope float_scope.

Lemma update_keeps (now : Z) (deltaTime : option float) (pw : PhysicsWorld.t)
    (p p' : Player.t) :
  Player.update now deltaTime pw p = Some p' ->
  Player.id p' = Player.id p
  /\ Player.color p' = Player.color p
  /\ Player.input p' = Player.input p
  /\ (Player.body p' = None <-> Player.body p = None).
Proof.
  unfold Player.update. destruct (Player.kinematic pw p) eqn:Hk.
  - intros [= <-]. unfold Player.updateSimpleMovement, Player.simpleMovementStep.
    by destruct (Player.targetVelocity (Player.input p)).
  - unfold Player.kinematic in Hk.
    destruct (Player.body p) as [b|] eqn:Hb; [|done].
    unfold Player.checkGroundContact, Player.syncFromBody. rewrite Hb. simpl.
    rewrite Hb. destruct (PhysicsWorld.getWorld pw) as [w|]; [|done]. simpl.
    intros [= <-].
    set (q := Player.set_onGround _ _).
    assert (Hq : Player.body q = Some b /\ Player.id q = Player.id p
                 /\ Player.color q = Player.color p
                 /\ Player.input q = Player.input p) by done.
    destruct Hq as (Hqb & Hqi & Hqc & Hqn).
    destruct (applyMovementForces_vertical (Player.normalizeDeltaTime
                (Player.elapsed now deltaTime p)) q b Hqb)
      as (b1 & Hb1 & _ & _ & Hi1 & _).
    set (q1 := Player.applyMovementForces _ q) in *.
    assert (H1 : Player.id q1 = Player.id q /\ Player.color q1 = Player.color q).
    { unfold q1, Player.applyMovementForces. rewrite Hqb.
      destruct (Player.targetVelocity (Player.input q)).
      destruct (Player.onGround q); [destruct (Player.jump (Player.input q))|];
        done. }
    destruct H1 as [Hid1 Hc1].
    destruct (applyFloatiness_body pw q1 b1 Hb1) as (b2 & Hb2 & _).
    destruct (applyFloatiness_flags pw q1) as [_ Hi2].
    set (q2 := Player.applyFloatiness pw q1) in *.
    assert (H2 : Player.id q2 = Player.id q1 /\ Player.color q2 = Player.color q1).
    { unfold q2, Player.applyFloatiness.
      destruct (negb _ && _); [destruct (PhysicsWorld.getWorld pw)|]; done. }
    destruct H2 as [Hid2 Hc2].
    unfold Player.applyBoundaryConstraints, Player.stopRotation, Player.on_body.
    simpl. rewrite Hb2. simpl.
    rewrite Hid2, Hid1, Hqi, Hc2, Hc1, Hqc, Hi2, Hi1, Hqn. done.
Qed.

Lemma updateAllPlayers_keeps (now : Z) (deltaTime : float) (pw : PhysicsWorld.t)
    (m : list (string * Player.t)) :
  forall m',
    GameManager.updateAllPlayers now deltaTime pw m = Some m' ->
    Forall2 (fun kp kp' : string * Player.t =>
               fst kp' = fst kp
               /\ Player.id (snd kp') = Player.id (snd kp)
               /\ Player.color (snd kp') = Player.color (snd kp)
               /\ Player.input (snd kp') = Player.input (snd kp)
               /\ (Player.body (snd kp') = None <-> Player.body (snd kp) = None))
            m m'.
Proof.
  induction m as [|[k p] m IH]; intros m'; simpl.
  - intros [= <-]. constructor.
  - destruct (Player.update now (Some deltaTime) pw p) as [p'|] eqn:Hu; [|done].
    simpl. destruct (GameManager.updateAllPlayers now deltaTime pw m) as [r|]; [|done].
    simpl. intros [= <-]. constructor; [|by apply IH].
    simpl. split; [done|]. by apply (update_keeps now (Some deltaTime) pw).
Qed.

Lemma step_isEnabled (solver : float -> CANNON.World -> CANNON.World)
    (pw : PhysicsWorld.t) :
  PhysicsWorld.isEnabled (PhysicsWorld.step solver pw) = PhysicsWorld.isEnabled pw.
Proof.
  unfold PhysicsWorld.step. destruct (PhysicsWorld.world pw); [|done].
  by destruct (PhysicsWorld.isEnabled pw) eqn:E.
Qed.

Lemma stepPlayer_keeps
    (bodyStep : float -> CANNON.World -> CANNON.Body -> CANNON.Body)
    (pw : PhysicsWorld.t) (p : Player.t) :
  Player.id (GameManager.stepPlayer bodyStep pw p) = Player.id p
  /\ Player.color (GameManager.stepPlayer bodyStep pw p) = Player.color p
  /\ Player.input (GameManager.stepPlayer bodyStep pw p) = Player.input p
  /\ (Player.body (GameManager.stepPlayer bodyStep pw p) = None
      <-> Player.body p = None).
Proof.
  unfold GameManager.stepPlayer.
  destruct (PhysicsWorld.world pw); [|done].
  destruct (PhysicsWorld.isEnabled pw); [|done].
  unfold Player.on_body. simpl. by destruct (Player.body p).
Qed.

Lemma gameLoop_keeps
    (worldStep : float -> CANNON.World -> CANNON.World)
    (bodyStep : float -> CANNON.World -> CANNON.Body -> CANNON.Body)
    (now : Z) (gm gm' : GameManager.t) :
  GameManager.gameLoop worldStep bodyStep now gm = Some gm' ->
  GameManager.lastTick gm' = now
  /\ GameManager.gameLoopInterval gm' = GameManager.gameLoopInterval gm
  /\ PhysicsWorld.isPhysicsEnabled (GameManager.physicsWorld gm')
     = PhysicsWorld.isPhysicsEnabled (GameManager.physicsWorld gm)
  /\ Forall2 (fun kp kp' : string * Player.t =>
                fst kp' = fst kp
                /\ Player.id (snd kp') = Player.id (snd kp)
                /\ Player.color (snd kp') = Player.color (snd kp)
                /\ Player.input (snd kp') = Player.input (snd kp)
                /\ (Player.body (snd kp') = None <-> Player.body (snd kp) = None))
             (GameManager.players gm) (GameManager.players gm').
Proof.
  unfold GameManager.gameLoop.
  set (pw := GameManager.physicsWorld gm).
  set (pw' := PhysicsWorld.step worldStep pw).
  set (stepped := map _ (GameManager.players gm)).
  destruct (GameManager.updateAllPlayers _ _ pw' stepped) as [players'|] eqn:Hu;
    [|done].
  simpl. intros [= <-].
  unfold GameManager.broadcastGameState. simpl.
  assert (Hen : PhysicsWorld.isPhysicsEnabled pw' = PhysicsWorld.isPhysicsEnabled pw)
    by apply step_isEnabled.
  assert (HF : Forall2 (fun kp kp' : string * Player.t =>
                fst kp' = fst kp
                /\ Player.id (snd kp') = Player.id (snd kp)
                /\ Player.color (snd kp') = Player.color (snd kp)
                /\ Player.input (snd kp') = Player.input (snd kp)
                /\ (Player.body (snd kp') = None <-> Player.body (snd kp) = None))
             (GameManager.players gm) players').
  { apply updateAllPlayers_keeps in Hu. unfold stepped in Hu.
    apply Forall2_fmap_l in Hu. eapply Forall2_impl; [exact Hu|].
    intros [k p] [k' p'] (Hk & Hi & Hc & Hn & Hb). simpl in *.
    destruct (stepPlayer_keeps bodyStep pw p) as (Hi0 & Hc0 & Hn0 & Hb0).
    rewrite Hi, Hc, Hn, Hb, Hi0, Hc0, Hn0, Hb0. done. }
  by destruct (0 <? GameManager.Map_size players')%nat.
Qed.

Lemma Map_get_Forall2 {A : Type} (R : A -> A -> Prop) (key : string)
    (m m' : list (string * A)) :
  Forall2 (fun kp kp' => fst kp' = fst kp /\ R (snd kp) (snd kp')) m m' ->
  match GameManager.Map_get key m, GameManager.Map_get key m' with
  | Some v, Some v' => R v v'
  | None, None => True
  | _, _ => False
  end.
Proof.
  unfold GameManager.Map_get.
  induction 1 as [|[k v] [k' v'] m m' [Hk HR] _ IH]; simpl; [done|].
  simpl in Hk. subst k'. by destruct (String.eqb k key).
Qed.

(** X10.  A tick of the game loop stamps [lastTick], leaves the timer and
    the physics switch alone, and keeps the registry: the same identifiers
    in the same order, each participant with its identity, colour and
    input record, and with a body exactly if it had one. *)
Theorem tick_keeps_participants
    (worldStep : float -> CANNON.World -> CANNON.World)
    (bodyStep : float -> CANNON.World -> CANNON.Body -> CANNON.Body)
    (now : Z) (gm gm' : GameManager.t) (playerId : string) :
  GameManager.gameLoop worldStep bodyStep now gm = Some gm' ->
  GameManager.lastTick gm' = now
  /\ GameManager.gameLoopInterval gm' = GameManager.gameLoopInterval gm
  /\ PhysicsWorld.isPhysicsEnabled (GameManager.physicsWorld gm')
     = PhysicsWorld.isPhysicsEnabled (GameManager.physicsWorld gm)
  /\ map fst (GameManager.players gm') = map fst (GameManager.players gm)
  /\ match GameManager.getPlayer playerId gm, GameManager.getPlayer playerId gm' with
     | Some p, Some p' =>
         Player.id p' = Player.id p
         /\ Player.color p' = Player.color p
         /\ Player.input p' = Player.input p
         /\ (Player.body p' = None <-> Player.body p = None)
     | None, None => True
     | _, _ => False
     end.
Proof.
  intros Hloop.
  destruct (gameLoop_keeps _ _ _ _ _ Hloop) as (Ht & Hi & He & HF).
  split; [exact Ht|]. split; [exact Hi|]. split; [exact He|]. split.
  - clear -HF. induction HF as [|? ? ? ? [Hk _] _ IH]; simpl; [done|].
    by rewrite Hk, IH.
  - unfold GameManager.getPlayer.
    apply (Map_get_Forall2
             (fun p p' => Player.id p' = Player.id p
                          /\ Player.color p' = Player.color p
                          /\ Player.input p' = Player.input p
                          /\ (Player.body p' = None <-> Player.body p = None))).
    exact HF.
Qed.

End Ticks.

(* ===================================================================== *)
(** ** Further properties: the running server *)
(* ===================================================================== *)

Section ServerStates.
Local Open Scope float_scope.

Lemma Map_get_elem_of {A : Type} (key : string) (v : A) (m : list (string * A)) :
  GameManager.Map_get key m = Some v -> (key, v) ∈ m.
Proof.
  unfold GameManager.Map_get. induction m as [|[k w] m IH]; simpl; [done|].
  destruct (String.eqb_spec k key) as [->|Hne].
  - intros [= ->]. apply list_elem_of_here.
  - intros H. apply list_elem_of_further. by apply IH.
Qed.

Lemma Map_get_keys {A : Type} (key : string) (m : list (string * A)) :
  is_Some (GameManager.Map_get key m) <-> key ∈ map fst m.
Proof.
  unfold GameManager.Map_get. induction m as [|[k w] m IH]; simpl.
  - split; [by intros [? ?]|by intros ?%elem_of_nil].
  - rewrite elem_of_cons. destruct (String.eqb_spec k key) as [->|Hne].
    + split; [by left|by eexists].
    + rewrite IH. split; [by right|]. intros [->|H]; done.
Qed.

Lemma Forall_Map_set {A : Type} (P : string * A -> Prop) (key : string) (v : A)
    (m : list (string * A)) :
  Forall P m -> P (key, v) -> Forall P (GameManager.Map_set key v m).
Proof.
  intros Hm Hv. induction Hm as [|[k w] m Hk Hm IH]; simpl.
  - by constructor.
  - destruct (String.eqb_spec k key) as [->|Hne]; by constructor.
Qed.

Lemma Forall_Map_delete {A : Type} (P : string * A -> Prop) (key : string)
    (m : list (string * A)) :
  Forall P m -> Forall P (GameManager.Map_delete key m).
Proof.
  induction 1 as [|[k w] m Hk Hm IH]; simpl; [constructor|].
  destruct (String.eqb k key); [done|by constructor].
Qed.

Lemma busy_reachable : Server.reachable Arrivals.busy.
Proof.
  apply Server.reach_playerInput, Server.reach_connection, Server.reach_start.
  intros w [= <-]. by apply (bool_decide_unpack _).
Qed.

Lemma reachable_bookkeeping (s : Server.t) :
  Server.reachable s ->
  forall k : string,
    is_Some (InputHandler.lastInputTime (Server.inputHandler s) !! k) ->
    is_Some (GameManager.getPlayer k (Server.gameManager s)).
Proof.
  induction 1 as [solver now Hnd
                 |r1 r2 colour now bodyId socketId s _ IH
                 |now socketId inputData s _ IH
                 |socketId s _ IH
                 |worldStep bodyStep now s gm' _ IH Hkeep Hloop]; intros k.
  - simpl. rewrite lookup_empty. by intros [? ?].
  - simpl. intros Hk%IH. unfold GameManager.getPlayer, GameManager.addPlayer.
    destruct (Player.new _ _ _ _ _ _ _ _) as [player pw]. simpl.
    destruct (decide (k = socketId)) as [->|Hne].
    + rewrite Map_get_set_eq. by eexists.
    + by rewrite Map_get_set_ne.
  - unfold Server.onPlayerInput.
    destruct (GameManager.getPlayer socketId (Server.gameManager s))
      as [player|] eqn:Hp; [|apply IH].
    unfold InputHandler.processInput.
    destruct (InputHandler.validateInput inputData) as [validInput|];
      [unfold InputHandler.shouldProcessInput; destruct (_ >=? _)%Z|];
      simpl; unfold GameManager.getPlayer; simpl;
      (destruct (decide (k = socketId)) as [->|Hne];
       [intros _; rewrite Map_get_set_eq; by eexists
       |rewrite Map_get_set_ne by done; rewrite ?lookup_insert_ne by done;
        apply IH]).
  - simpl. destruct (decide (k = socketId)) as [->|Hne].
    + rewrite lookup_delete_eq. by intros [? ?].
    + rewrite lookup_delete_ne by done. intros Hk%IH.
      unfold GameManager.getPlayer, GameManager.removePlayer in *.
      destruct (GameManager.Map_get socketId _); simpl; [|done].
      by rewrite Map_get_delete_ne.
  - simpl. intros Hk%IH.
    destruct (gameLoop_keeps _ _ _ _ _ Hloop) as (_ & _ & _ & HF).
    pose proof (Map_get_Forall2 (fun _ _ => True) k _ _
                  (Forall2_impl _ _ _ _ HF
                     (fun kp kp' H => conj (proj1 H) I))) as Hm.
    unfold GameManager.getPlayer in *.
    destruct Hk as [p Hp]. rewrite Hp in Hm.
    destruct (GameManager.Map_get k (GameManager.players gm')); [by eexists|done].
Qed.

(** X16.  In every state of the running server, the connections with
    rate-limit bookkeeping are registered participants, so the handler
    holds at most as many entries as there are participants. *)
Theorem bookkeeping_bounded (s : Server.t) :
  Server.reachable s ->
  (forall k : string,
      is_Some (InputHandler.lastInputTime (Server.inputHandler s) !! k) ->
      is_Some (GameManager.getPlayer k (Server.gameManager s)))
  /\ (fst (InputHandler.getStats (Server.inputHandler s))
      <= fst (fst (GameManager.getGameStats (Server.gameManager s))))%nat.
Proof.
  intros Hr. pose proof (reachable_bookkeeping s Hr) as Hsub.
  split; [exact Hsub|].
  unfold InputHandler.getStats, GameManager.getGameStats, GameManager.Map_size.
  simpl. set (m := InputHandler.lastInputTime (Server.inputHandler s)) in *.
  rewrite <- length_map_to_list, <- (length_fmap fst (map_to_list m)),
    <- (length_map fst (GameManager.players _)).
  apply submseteq_length, NoDup_submseteq; [apply NoDup_fst_map_to_list|].
  intros k [[k' t] [-> Hk]]%list_elem_of_fmap. simpl.
  apply elem_of_map_to_list in Hk. apply Map_get_keys, Hsub. by eexists.
Qed.

(** X17.  In every state of the running server, a registered participant
    has no body exactly when physics is disabled: each participant runs in
    the mode the world had at its creation, the kinematic one if and only
    if physics is disabled. *)
Theorem mode_fixed_at_creation (s : Server.t) (playerId : string) (p : Player.t) :
  Server.reachable s ->
  GameManager.getPlayer playerId (Server.gameManager s) = Some p ->
  (Player.body p = None
   <-> PhysicsWorld.isPhysicsEnabled
         (GameManager.physicsWorld (Server.gameManager s)) = false)
  /\ Player.kinematic (GameManager.physicsWorld (Server.gameManager s)) p
     = negb (PhysicsWorld.isPhysicsEnabled
               (GameManager.physicsWorld (Server.gameManager s))).
Proof.
  intros Hr Hp.
  assert (Hall : Forall (fun kp : string * Player.t =>
                   Player.body (snd kp) = None
                   <-> PhysicsWorld.isPhysicsEnabled
                         (GameManager.physicsWorld (Server.gameManager s)) = false)
                 (GameManager.players (Server.gameManager s))).
  { clear Hp p playerId.
    induction Hr as [solver now Hnd
                    |r1 r2 colour now bodyId socketId s _ IH
                    |now socketId inputData s _ IH
                    |socketId s _ IH
                    |worldStep bodyStep now s gm' _ IH Hkeep Hloop].
    - simpl. constructor.
    - simpl. unfold GameManager.addPlayer, Player.new.
      unfold PhysicsWorld.isPhysicsEnabled in *.
      destruct (PhysicsWorld.isEnabled (GameManager.physicsWorld (Server.gameManager s)))
        eqn:He; simpl.
      + assert (He' : PhysicsWorld.isEnabled
                        (PhysicsWorld.addBody
                           {| CANNON.id := bodyId; CANNON.mass := 1;
                              CANNON.position := Vec3.mk (0 + (r1 * 10 - 5)) 2
                                                   (0 + (r2 * 10 - 5));
                              CANNON.velocity := Vec3.zero;
                              CANNON.angularVelocity := Vec3.zero;
                              CANNON.force := Vec3.zero |}
                           (GameManager.physicsWorld (Server.gameManager s))) = true).
        { unfold PhysicsWorld.addBody.
          destruct (PhysicsWorld.world _); [|done]. by rewrite He. }
        rewrite He'. apply Forall_Map_set; [|done].
        eapply Forall_impl; [exact IH|]. simpl. intros kp Hkp. by rewrite Hkp.
      + rewrite He. apply Forall_Map_set; [exact IH|done].
    - unfold Server.onPlayerInput.
      destruct (GameManager.getPlayer socketId (Server.gameManager s))
        as [player|] eqn:Hp; [|exact IH].
      assert (Hpl : Player.body player = None
                    <-> PhysicsWorld.isPhysicsEnabled
                          (GameManager.physicsWorld (Server.gameManager s)) = false).
      { apply Map_get_elem_of in Hp.
        by apply (proj1 (Forall_forall _ _) IH (socketId, player)). }
      unfold InputHandler.processInput.
      destruct (InputHandler.validateInput inputData) as [validInput|];
        [unfold InputHandler.shouldProcessInput; destruct (_ >=? _)%Z|];
        simpl; (apply Forall_Map_set; [exact IH|exact Hpl]).
    - simpl. unfold GameManager.removePlayer.
      destruct (GameManager.Map_get socketId _) as [player|]; [|exact IH]. simpl.
      assert (He : PhysicsWorld.isPhysicsEnabled
                     (Player.destroy player
                        (GameManager.physicsWorld (Server.gameManager s)))
                   = PhysicsWorld.isPhysicsEnabled
                       (GameManager.physicsWorld (Server.gameManager s))).
      { generalize (GameManager.physicsWorld (Server.gameManager s)). intros pw.
        unfold Player.destroy, PhysicsWorld.removeBody, PhysicsWorld.isPhysicsEnabled.
        destruct (Player.body player); [|done].
        destruct (PhysicsWorld.world pw); [|done].
        destruct (PhysicsWorld.isEnabled pw) eqn:E; [done|exact E]. }
      rewrite He. by apply Forall_Map_delete.
    - simpl. destruct (gameLoop_keeps _ _ _ _ _ Hloop) as (_ & _ & He & HF).
      rewrite He. clear -IH HF.
      induction HF as [|kp kp' m m' (_ & _ & _ & _ & Hb) HF IHF]; [constructor|].
      inversion IH as [|? ? Hkp Hm]; subst.
      constructor; [by rewrite Hb|by apply IHF]. }
  apply Map_get_elem_of in Hp.
  pose proof (proj1 (Forall_forall _ _) Hall (playerId, p) Hp) as Hpl.
  simpl in Hpl. clear Hall. rename Hpl into Hall.
  split; [exact Hall|].
  unfold Player.kinematic. destruct (Player.body p) as [b|].
  - done.
  - by rewrite (proj1 Hall eq_refl).
Qed.

(** X15.  After [disconnect] the participant and its bookkeeping are
    gone; an input message that still arrives for the connection changes
    nothing, and so does a second [disconnect]. *)
Theorem late_messages_ignored (now : Z) (socketId : string) (inputData : JS.value)
    (s : Server.t) :
  Server.onPlayerInput now socketId inputData (Server.onDisconnect socketId s)
  = Server.onDisconnect socketId s
  /\ Server.onDisconnect socketId (Server.onDisconnect socketId s)
     = Server.onDisconnect socketId s
  /\ GameManager.getPlayer socketId (Server.gameManager (Server.onDisconnect socketId s))
     = None
  /\ InputHandler.lastInputTime (Server.inputHandler (Server.onDisconnect socketId s))
       !! socketId = None.
Proof.
  assert (Hget : GameManager.getPlayer socketId
                   (GameManager.removePlayer socketId (Server.gameManager s)) = None).
  { unfold GameManager.getPlayer, GameManager.removePlayer.
    destruct (GameManager.Map_get socketId
                (GameManager.players (Server.gameManager s))) eqn:E; simpl;
      [apply Map_get_delete|exact E]. }
  split; [|split; [|split]].
  - unfold Server.onPlayerInput. simpl. by rewrite Hget.
  - unfold Server.onDisconnect. simpl. f_equal.
    + unfold GameManager.getPlayer in Hget.
      unfold GameManager.removePlayer at 1. by rewrite Hget.
    + unfold InputHandler.cleanupPlayer. simpl. by rewrite delete_delete_eq.
  - exact Hget.
  - simpl. apply lookup_delete_eq.
Qed.

(** X19.  The [gameState] event sent to a connecting client carries the
    client's own identifier and a participant sequence that contains the
    new participant, is never empty, and is one longer than the registry
    was (as long, if the identifier was already registered). *)
Theorem connection_snapshot (r1 r2 : float) (colour : string) (now : Z)
    (bodyId : nat) (socketId : string) (gm : GameManager.t) :
  let payload := Arrivals.gameStateOnConnection r1 r2 colour now bodyId socketId gm in
  let player := fst (GameManager.addPlayer r1 r2 colour now bodyId socketId 0 2 0 gm) in
  snd payload = socketId
  /\ Player.State.id (Player.getState player) = socketId
  /\ In (Player.getState player) (GameManager.gs_players (fst payload))
  /\ (0 < length (GameManager.gs_players (fst payload)))%nat
  /\ length (GameManager.gs_players (fst payload))
     = (match GameManager.getPlayer socketId gm with
        | Some _ => fst (fst (GameManager.getGameStats gm))
        | None => S (fst (fst (GameManager.getGameStats gm)))
        end).
Proof.
  intros payload player. unfold payload, player, Arrivals.gameStateOnConnection.
  destruct (GameManager.addPlayer r1 r2 colour now bodyId socketId 0 2 0 gm)
    as [pl gm'] eqn:Hadd. simpl.
  assert (Hpl : Player.id pl = socketId /\ GameManager.players gm'
                = GameManager.Map_set socketId pl (GameManager.players gm)).
  { unfold GameManager.addPlayer, Player.new in Hadd.
    destruct (negb _) in Hadd; injection Hadd as <- <-; done. }
  destruct Hpl as [Hid Hps].
  assert (Hin : In (Player.getState pl)
                   (map Player.getState (GameManager.Map_values (GameManager.players gm')))).
  { apply in_map. unfold GameManager.Map_values. rewrite Hps.
    apply (in_map snd _ (socketId, pl)). apply list_elem_of_In, Map_get_elem_of.
    apply Map_get_set_eq. }
  split; [done|]. split; [exact Hid|]. split; [exact Hin|].
  unfold GameManager.Map_values in *. rewrite !length_map. rewrite Hps.
  pose proof (Map_size_set socketId pl (GameManager.players gm)) as Hsz.
  unfold GameManager.Map_size, GameManager.getGameStats, GameManager.getPlayer in *.
  simpl. rewrite Hsz. destruct (GameManager.Map_get socketId _); simpl; split; try lia; try done.
  destruct (GameManager.players gm); simpl in *; [|lia].
  unfold GameManager.Map_get in *. simpl in *. done.
Qed.

End ServerStates.

Section MoreWitnesses.
Local Open Scope float_scope.

Lemma enabledWorld_fresh :
  forall w, PhysicsWorld.world Scenario.enabledWorld = Some w -> 7%nat ∉ CANNON.bodies w.
Proof. intros w [= <-]. simpl. by apply (bool_decide_unpack _). Qed.

Lemma validateInput_idempotent_witness :
  InputHandler.validateInput
    (Arrivals.toObject [("left", true); ("jump", false)])
  = Some [("left", true); ("jump", false)].
Proof.
  exact (validateInput_idempotent
           (JS.object [("left", JS.num 1); ("speed", JS.num 9); ("jump", JS.str "")])
           [("left", true); ("jump", false)] eq_refl).
Defined.

Lemma shouldProcessInput_other_connection_witness :
  InputHandler.lastInputTime
    (snd (InputHandler.shouldProcessInput 1005 "p3" (Scenario.handlerAt 1000))) !! "p2"
  = InputHandler.lastInputTime (Scenario.handlerAt 1000) !! "p2"
  /\ fst (InputHandler.shouldProcessInput 1010 "p2"
            (snd (InputHandler.shouldProcessInput 1005 "p3" (Scenario.handlerAt 1000))))
     = fst (InputHandler.shouldProcessInput 1010 "p2" (Scenario.handlerAt 1000)).
Proof.
  apply (shouldProcessInput_other_connection 1010 1005 "p2" "p3"
           (Scenario.handlerAt 1000)).
  discriminate.
Defined.

Lemma physics_tick_public_state_witness :
  exists p' b',
    Player.update 1016 (Some 0.016) Scenario.enabledWorld Scenario.stray = Some p'
    /\ Player.body p' = Some b'
    /\ Player.position p' = Vec3.mk 60 0.4 0
    /\ CANNON.position b' = Vec3.mk 0 5 0
    /\ Vec3.y (CANNON.angularVelocity b') = 0.
Proof.
  destruct (physics_tick_public_state 1016 0.016 Scenario.enabledWorld
              Scenario.flatGround Scenario.stray (Scenario.bodyAt 2 60 0.4 0)
              eq_refl eq_refl eq_refl)
    as (p' & b' & Hu & Hb & Hp & _ & _ & _ & _ & Hbp & _ & _ & Hay).
  exists p', b'. split; [exact Hu|]. split; [exact Hb|]. split; [exact Hp|].
  split; [exact Hbp|exact Hay].
Defined.


Lemma tick_keeps_participants_witness :
  exists gm',
    GameManager.gameLoop (fun _ w => w) (fun _ _ b => b) 1016 Scenario.game = Some gm'
    /\ GameManager.lastTick gm' = 1016%Z
    /\ map fst (GameManager.players gm') = ["p1"; "p3"]
    /\ match GameManager.getPlayer "p1" gm' with
       | Some p' => Player.input p' = Player.input Scenario.jumper
       | None => False
       end.
Proof.
  destruct (GameManager.gameLoop (fun _ w => w) (fun _ _ b => b) 1016 Scenario.game)
    as [gm'|] eqn:Hloop; [|vm_compute in Hloop; discriminate Hloop].
  destruct (tick_keeps_participants _ _ _ _ _ "p1" Hloop) as (Ht & _ & _ & Hk & Hp).
  exists gm'. split; [reflexivity|]. split; [exact Ht|]. split; [exact Hk|].
  change (GameManager.getPlayer "p1" Scenario.game) with (Some Scenario.jumper) in Hp.
  destruct (GameManager.getPlayer "p1" gm'); [|exact Hp].
  exact (proj1 (proj2 (proj2 Hp))).
Defined.

Lemma world_add_remove_witness :
  PhysicsWorld.removeBody (Scenario.bodyAt 7 0 2 0)
    (PhysicsWorld.addBody (Scenario.bodyAt 7 0 2 0) Scenario.enabledWorld)
  = Scenario.enabledWorld
  /\ PhysicsWorld.getDebugData
       (PhysicsWorld.addBody (Scenario.bodyAt 7 0 2 0) Scenario.enabledWorld)
     = [0%nat; 1%nat; 2%nat; 7%nat].
Proof.
  destruct (world_add_remove (Scenario.bodyAt 7 0 2 0) Scenario.enabledWorld
              enabledWorld_fresh) as (H1 & _ & H3).
  split; [exact H1|]. apply H3; [reflexivity|by eexists].
Defined.

Lemma add_then_remove_player_witness :
  GameManager.removePlayer "p9"
    (snd (GameManager.addPlayer 0.5 0.5 "#feca57" 1200 7 "p9" 0 2 0 Scenario.game))
  = Scenario.game.
Proof.
  apply (add_then_remove_player 0.5 0.5 "#feca57" 1200 7 "p9" 0 2 0 Scenario.game);
    [reflexivity|exact enabledWorld_fresh].
Defined.

Lemma registry_lookup_witness :
  GameManager.getPlayer "p9"
    (snd (GameManager.addPlayer 0.5 0.5 "#feca57" 1200 7 "p9" 0 2 0 Scenario.game))
  = Some (fst (GameManager.addPlayer 0.5 0.5 "#feca57" 1200 7 "p9" 0 2 0 Scenario.game))
  /\ GameManager.getPlayer "p1"
       (snd (GameManager.addPlayer 0.5 0.5 "#feca57" 1200 7 "p9" 0 2 0 Scenario.game))
     = Some Scenario.jumper
  /\ GameManager.getPlayer "p1" (GameManager.removePlayer "p9" Scenario.game)
     = Some Scenario.jumper.
Proof.
  destruct (registry_lookup 0.5 0.5 "#feca57" 1200 7 "p9" "p1" 0 2 0 Scenario.game)
    as (H1 & _ & H3 & H4 & _); [discriminate|].
  split; [exact H1|]. split; [exact H3|exact H4].
Defined.

Lemma shutdown_releases_witness :
  GameManager.players (GameManager.shutdown Scenario.game) = []
  /\ GameManager.gameLoopInterval (GameManager.shutdown Scenario.game) = false
  /\ PhysicsWorld.getDebugData
       (GameManager.physicsWorld (GameManager.shutdown Scenario.game)) = [0%nat]
  /\ GameManager.shutdown (GameManager.shutdown Scenario.game)
     = GameManager.shutdown Scenario.game.
Proof.
  destruct (shutdown_releases Scenario.game enabledWorld_distinct)
    as (H1 & H2 & _ & _ & H5).
  split; [exact H1|]. split; [exact H2|]. split; [reflexivity|exact H5].
Defined.

Lemma bookkeeping_bounded_witness :
  (fst (InputHandler.getStats (Server.inputHandler Arrivals.busy))
   <= fst (fst (GameManager.getGameStats (Server.gameManager Arrivals.busy))))%nat.
Proof. exact (proj2 (bookkeeping_bounded Arrivals.busy busy_reachable)). Defined.

Lemma mode_fixed_at_creation_witness :
  exists p,
    GameManager.getPlayer "p1" (Server.gameManager Arrivals.busy) = Some p
    /\ Player.kinematic
         (GameManager.physicsWorld (Server.gameManager Arrivals.busy)) p = false.
Proof.
  destruct (GameManager.getPlayer "p1" (Server.gameManager Arrivals.busy))
    as [p|] eqn:Hp; [|vm_compute in Hp; discriminate Hp].
  exists p. split; [reflexivity|].
  exact (proj2 (mode_fixed_at_creation Arrivals.busy "p1" p busy_reachable Hp)).
Defined.

Lemma reachable_invariant_witness :
  PhysicsWorld.consistent (GameManager.physicsWorld (Server.gameManager Arrivals.busy))
  /\ PhysicsWorld.distinctBodies
       (GameManager.physicsWorld (Server.gameManager Arrivals.busy)).
Proof. exact (reachable_invariant Arrivals.busy busy_reachable). Defined.

End MoreWitnesses.
